(** * Section scheduling (optimizer.py): a shallow embedding and its properties

    The script reads a junction's tracks and a list of trains, derives a
    traversal time per track, builds a CP-SAT model, asks the solver for a
    schedule and writes the enriched train records, which the dashboard
    (app.py) shows.  The embedding follows the script stage by stage:

    - [Codec]     [parse_time_to_minutes] and [minutes_to_clock];
    - [Load]      the loop that stores [durations] and [arrival_min] in
                  every train record;
    - [CpSat]     the part of the solver library's interface the script
                  uses: variables, constraints and what a solution is;
    - [Build]     horizon, variables, constraints, objective;
    - [Output]    the extraction of the solved values and the run as a
                  whole.

    Python exceptions are values of [exn]; a computation that may raise
    has type [result A]. *)

From Stdlib Require Import ZArith Lia Bool Ascii String.
From Stdlib Require Import Floats.PrimFloat Floats.SpecFloat Floats.FloatOps.
From stdpp Require Import base option list gmap strings.

Local Open Scope Z_scope.

(** ** Exceptions and the error monad *)

Inductive exn : Set :=
| KeyError | ValueError | TypeError | AttributeError
| IndexError | ZeroDivisionError | OverflowError | UnicodeEncodeError.

Inductive result (A : Type) : Type :=
| Ok (a : A)
| Raise (e : exn).
Arguments Ok {A} a.
Arguments Raise {A} e.

#[global] Instance result_bind : MBind result := λ A B k r,
  match r with
  | Ok a => k a
  | Raise e => Raise e
  end.

#[global] Instance result_fmap : FMap result := λ A B f r,
  match r with
  | Ok a => Ok (f a)
  | Raise e => Raise e
  end.

Definition of_option {A} (e : exn) (o : option A) : result A :=
  match o with
  | Some a => Ok a
  | None => Raise e
  end.

Definition is_ok {A} (r : result A) : bool :=
  match r with Ok _ => true | Raise _ => false end.

(** [for_each f i l st] is a [for] loop over [enumerate(l, i)] that threads
    the state [st] and stops at the first exception. *)
Fixpoint for_each {A St} (f : St → nat → A → result St)
    (i : nat) (l : list A) (st : St) : result St :=
  match l with
  | [] => Ok st
  | x :: rest => st' ← f st i x ; for_each f (S i) rest st'
  end.

(** [map_result f l] is a loop over [l] that collects [f x] for every
    element and stops at the first exception. *)
Fixpoint map_result {A B} (f : A → result B) (l : list A) : result (list B) :=
  match l with
  | [] => Ok []
  | x :: rest =>
      y ← f x;
      ys ← map_result f rest;
      Ok (y :: ys)
  end.

(** ** JSON values, as [json.load] yields them *)

#[local] Unset Elimination Schemes.
Inductive json : Type :=
| JNull
| JBool (b : bool)
| JInt (z : Z)
| JFloat (f : float)
| JStr (s : string)
| JList (l : list json)
| JObj (o : list (string * json)).
#[local] Set Elimination Schemes.

(** A train record is a [dict] with string keys. *)
Abbreviation train := (gmap string json).

(** [t[key]] *)
Definition getitem (t : train) (key : string) : result json :=
  of_option KeyError (t !! key).

(** ** Time codec *)

(** A Python [str] is held as the bytes of its UTF-8 encoding; a lone
    surrogate, which [json.load] yields for an unpaired escape, as the
    three bytes ED A0..BF xx of its code point. *)

Module Codec.

Definition byte (c : ascii) : Z := Z.of_nat (nat_of_ascii c).

Definition is_digit (c : ascii) : bool :=
  let n := Z.of_nat (nat_of_ascii c) in (48 <=? n) && (n <=? 57).

Definition digit_val (c : ascii) : Z := Z.of_nat (nat_of_ascii c) - 48.

(** The ASCII digit of [n]. *)
Definition digit_char (n : Z) : ascii :=
  ascii_of_nat (Z.to_nat (48 + n)).

(** The white space [int] skips around the digits of an ASCII string:
    tab, line feed, vertical tab, form feed, carriage return, space. *)
Definition is_space (c : ascii) : bool :=
  let n := Z.of_nat (nat_of_ascii c) in
  ((9 <=? n) && (n <=? 13)) || (n =? 32).

(** White space beyond ASCII: the code points [str.isspace] accepts. *)
Definition unicode_space (cp : Z) : bool :=
  (cp =? 133) || (cp =? 160) || (cp =? 5760)
  || ((8192 <=? cp) && (cp <=? 8202))
  || (cp =? 8232) || (cp =? 8233) || (cp =? 8239) || (cp =? 8287)
  || (cp =? 12288).

(** The decimal digits beyond ASCII (Unicode 14.0, the database of
    Python 3.11): every entry is the code point of a digit zero, which the
    digits one to nine follow. *)
Definition decimal_zeros : list Z :=
  [1632; 1776; 1984; 2406; 2534; 2662; 2790; 2918; 3046; 3174; 3302; 3430;
   3558; 3664; 3792; 3872; 4160; 4240; 6112; 6160; 6470; 6608; 6784; 6800;
   6992; 7088; 7232; 7248; 42528; 43216; 43264; 43472; 43504; 43600; 44016;
   65296; 66720; 68912; 69734; 69872; 69942; 70096; 70384; 70736; 70864;
   71248; 71360; 71472; 71904; 72016; 72784; 73040; 73120; 92768; 92864;
   93008; 120782; 120792; 120802; 120812; 120822; 123200; 123632; 125264;
   130032].

Definition unicode_decimal (cp : Z) : option Z :=
  (λ zero, cp - zero)
    <$> List.find (λ zero, (zero <=? cp) && (cp <=? zero + 9)) decimal_zeros.

(** What [int] makes of a character beyond ASCII before it parses: white
    space becomes a space, a decimal digit its ASCII digit, anything else
    makes the string invalid. *)
Definition ascii_of_code_point (cp : Z) : option ascii :=
  if unicode_space cp then Some " "%char
  else digit_char <$> unicode_decimal cp.

(** The payload of a continuation byte of UTF-8. *)
Definition continuation (c : ascii) : option Z :=
  let n := byte c in
  if (128 <=? n) && (n <=? 191) then Some (n - 128) else None.

(** The ASCII string [int] parses in place of [s]: ASCII characters stay,
    the others are decoded and replaced. *)
Fixpoint to_ascii (s : string) : option string :=
  match s with
  | EmptyString => Some EmptyString
  | String c r =>
      let n := byte c in
      if n <? 128 then String c <$> to_ascii r
      else if (194 <=? n) && (n <=? 223) then
        match r with
        | String c1 r1 =>
            b1 ← continuation c1;
            a ← ascii_of_code_point ((n - 192) * 64 + b1);
            String a <$> to_ascii r1
        | _ => None
        end
      else if (224 <=? n) && (n <=? 239) then
        match r with
        | String c1 (String c2 r2) =>
            b1 ← continuation c1;
            b2 ← continuation c2;
            a ← ascii_of_code_point (((n - 224) * 64 + b1) * 64 + b2);
            String a <$> to_ascii r2
        | _ => None
        end
      else if (240 <=? n) && (n <=? 244) then
        match r with
        | String c1 (String c2 (String c3 r3)) =>
            b1 ← continuation c1;
            b2 ← continuation c2;
            b3 ← continuation c3;
            a ← ascii_of_code_point
                  ((((n - 240) * 64 + b1) * 64 + b2) * 64 + b3);
            String a <$> to_ascii r3
        | _ => None
        end
      else None
  end.

Fixpoint lstrip (s : string) : string :=
  match s with
  | String c r => if is_space c then lstrip r else s
  | EmptyString => EmptyString
  end.

Definition is_blank (s : string) : bool :=
  match lstrip s with EmptyString => true | _ => false end.

(** Digits of a decimal literal, after the first one: a single underscore
    may sit between two digits, trailing white space is dropped. *)
Fixpoint digits (acc : Z) (s : string) : option Z :=
  match s with
  | EmptyString => Some acc
  | String c r =>
      if is_digit c then digits (10 * acc + digit_val c) r
      else if Ascii.eqb c "_" then
        match r with
        | String d r' =>
            if is_digit d then digits (10 * acc + digit_val d) r' else None
        | EmptyString => None
        end
      else if is_blank s then Some acc
      else None
  end.

Definition unsigned (s : string) : option Z :=
  match s with
  | String c r => if is_digit c then digits (digit_val c) r else None
  | EmptyString => None
  end.

(** The number of digits of a literal. *)
Fixpoint digit_count (s : string) : Z :=
  match s with
  | String c r => (if is_digit c then 1 else 0) + digit_count r
  | EmptyString => 0
  end.

(** The interpreter's default limit on the digits of a decimal literal
    ([sys.int_info.default_max_str_digits]). *)
Definition max_str_digits : Z := 4300.

(** [int(s)] for a string in base 10: surrounding white space, an optional
    sign, digits with single underscores; white space and decimal digits
    of other scripts count as their ASCII counterparts.  A literal of more
    than [max_str_digits] digits is refused. *)
Definition int_of_str (s : string) : result Z :=
  match to_ascii s with
  | Some a =>
      if max_str_digits <? digit_count a then Raise ValueError
      else
        of_option ValueError
          match lstrip a with
          | String "+" r => unsigned r
          | String "-" r => Z.opp <$> unsigned r
          | s' => unsigned s'
          end
  | None => Raise ValueError
  end.

(** [s.split(":")] *)
Fixpoint split_colon (cur : string) (s : string) : list string :=
  match s with
  | EmptyString => [String.rev cur]
  | String c r =>
      if Ascii.eqb c ":" then String.rev cur :: split_colon EmptyString r
      else split_colon (String c cur) r
  end.

(** [h, m = map(int, time_str.split(":")); return h * 60 + m].
    [map] is lazy and the unpacking consumes it piece by piece, so every
    failure (a piece that is no integer, too few or too many pieces) is a
    [ValueError]. *)
Definition parse_time_to_minutes (time_str : string) : result Z :=
  match split_colon EmptyString time_str with
  | [a; b] =>
      h ← int_of_str a ;
      m ← int_of_str b ;
      Ok (h * 60 + m)
  | _ => Raise ValueError
  end.

(** [datetime] covers the years 1 to 9999: day 1 to day [max_ordinal] of
    the proleptic calendar.  The base time is 1900-01-01 00:00 (what
    [strptime("00:00", "%H:%M")] returns), day [base_ordinal]. *)
Definition base_ordinal : Z := 693596.
Definition max_ordinal : Z := 3652059.

(** The least and the greatest number of minutes that lead from the base
    time to a day of the calendar. *)
Definition min_minutes : Z := - ((base_ordinal - 1) * 1440).
Definition max_minutes : Z := (max_ordinal - base_ordinal) * 1440 + 1439.

(** A [timedelta] as the class holds it: whole days and the seconds of the
    last one, [0 <= td_seconds < 86400]. *)
Record timedelta := { td_days : Z; td_seconds : Z }.

Definition max_delta_days : Z := 999999999.

(** [timedelta(minutes=minutes)] *)
Definition timedelta_of_minutes (minutes : Z) : result timedelta :=
  let seconds := minutes * 60 in
  let days := seconds / 86400 in
  if Z.abs days <=? max_delta_days
  then Ok {| td_days := days; td_seconds := seconds mod 86400 |}
  else Raise OverflowError.

(** The fields of a [datetime] the script uses: the day number and the
    time of day. *)
Record datetime := {
  dt_ordinal : Z;
  dt_hour : Z;
  dt_minute : Z;
  dt_second : Z }.

Definition base_time : datetime :=
  {| dt_ordinal := base_ordinal; dt_hour := 0; dt_minute := 0; dt_second := 0 |}.

(** [dt + td]: the day number and the seconds of the sum, which has to
    fall on a day of the calendar. *)
Definition datetime_add (dt : datetime) (td : timedelta) : result datetime :=
  let total :=
    dt_hour dt * 3600 + dt_minute dt * 60 + dt_second dt + td_seconds td in
  let days := dt_ordinal dt + td_days td + total / 86400 in
  let seconds := total mod 86400 in
  if (0 <? days) && (days <=? max_ordinal) then
    Ok {| dt_ordinal := days;
          dt_hour := seconds / 3600;
          dt_minute := (seconds mod 3600) / 60;
          dt_second := (seconds mod 3600) mod 60 |}
  else Raise OverflowError.

(** Two digits, zero padded: [%I] and [%M]. *)
Definition two_digits (n : Z) : string :=
  String (digit_char (n / 10)) (String (digit_char (n mod 10)) EmptyString).

(** [dt.strftime("%I:%M %p")], in the C locale. *)
Definition strftime (dt : datetime) : string :=
  let hour := dt_hour dt in
  let hour12 := if hour mod 12 =? 0 then 12 else hour mod 12 in
  let am_pm : string := if hour <? 12 then "AM" else "PM" in
  (two_digits hour12 +:+ ":" +:+ two_digits (dt_minute dt)
     +:+ " " +:+ am_pm)%string.

(** [dt = base_time + timedelta(minutes=minutes)] and
    [dt.strftime("%I:%M %p")]. *)
Definition minutes_to_clock (minutes : Z) : result string :=
  td ← timedelta_of_minutes minutes;
  dt ← datetime_add base_time td;
  Ok (strftime dt).

End Codec.

(** ** Loading: per-track durations and arrival minutes *)

(** A track of [raw_data["junction"]["tracks"]].  Both numbers are held as
    the binary64 value Python divides with; an integer literal of the file
    stands for the float of the same value. *)
Record track := { length_km : float; speed_kmph : float }.

Record input := { tracks : list track; trains : list train }.

Module Load.

(** [a / b] on floats *)
Definition truediv (a b : float) : result float :=
  if PrimFloat.eqb b 0%float then Raise ZeroDivisionError
  else Ok (PrimFloat.div a b).

(** [int(x)] for a float: truncation towards zero *)
Definition int_of_float (x : float) : result Z :=
  match Prim2SF x with
  | S754_zero _ => Ok 0
  | S754_infinity _ => Raise OverflowError
  | S754_nan => Raise ValueError
  | S754_finite sign m e =>
      let magnitude :=
        if 0 <=? e then Z.pos m * 2 ^ e else Z.pos m / 2 ^ (- e) in
      Ok (if sign then - magnitude else magnitude)
  end.

(** [int((tr["length_km"] / tr["speed_kmph"]) * 60)] *)
Definition time_min (tr : track) : result Z :=
  q ← truediv (length_km tr) (speed_kmph tr);
  int_of_float (PrimFloat.mul q 60%float).

(** The inner loop: [durations] of one train. *)
Definition track_durations (trs : list track) : result (list Z) :=
  map_result time_min trs.

(** [s.split] exists on strings only. *)
Definition as_str (j : json) : result string :=
  match j with
  | JStr s => Ok s
  | _ => Raise AttributeError
  end.

(** The body of the loop over [trains]: the record is updated in place. *)
Definition load_train (trs : list track) (t : train) : result train :=
  durations ← track_durations trs;
  let t1 := <["durations" := JList (JInt <$> durations)]> t in
  time_str ← getitem t1 "arrival_time" ≫= as_str;
  arrival ← Codec.parse_time_to_minutes time_str;
  Ok (<["arrival_min" := JInt arrival]> t1).

Definition load (trs : list track) (ts : list train) : result (list train) :=
  map_result (load_train trs) ts.

End Load.

(** ** Reading the fields of a loaded train *)

(** An integer operand; [bool] is a subclass of [int]. *)
Definition as_int (j : json) : result Z :=
  match j with
  | JInt z => Ok z
  | JBool b => Ok (if b then 1 else 0)
  | _ => Raise TypeError
  end.

Fixpoint as_int_list (l : list json) : result (list Z) :=
  match l with
  | [] => Ok []
  | j :: rest =>
      z ← as_int j;
      zs ← as_int_list rest;
      Ok (z :: zs)
  end.

(** [t["arrival_min"]] *)
Definition arrival_min (t : train) : result Z :=
  getitem t "arrival_min" ≫= as_int.

(** [t["durations"]] *)
Definition durations (t : train) : result (list Z) :=
  j ← getitem t "durations";
  match j with
  | JList l => as_int_list l
  | _ => Raise TypeError
  end.

(** [t["train_name"]], the key of the solver-variable dictionaries.  The
    input record set gives it as a string; other hashable values, which a
    dictionary would take as keys too, are not modelled. *)
Definition train_name (t : train) : result string :=
  j ← getitem t "train_name";
  match j with
  | JStr s => Ok s
  | _ => Raise TypeError
  end.

(** [t["priority"]] as the integer operand of [10 - t["priority"]]; the
    input record set gives it as an integer, a float is not modelled. *)
Definition priority (t : train) : result Z :=
  getitem t "priority" ≫= as_int.

(** [l[i]] *)
Definition index {A} (l : list A) (i : nat) : result A :=
  of_option IndexError (l !! i).

(** [max(l)] of a sequence of integers *)
Definition max_of (l : list Z) : result Z :=
  match l with
  | [] => Raise ValueError
  | x :: rest => Ok (foldl Z.max x rest)
  end.

(** ** The solver interface *)

(** The solver is the CP-SAT library the script imports.  This module
    holds the part of its documented interface the script relies on: the
    constraints the script adds, what it means for values to satisfy them,
    and what an answer of [Solve] promises. *)
Module CpSat.

(** The variables the script creates, named after the place of creation:
    [start_{name}] and [end_{name}] of the [i]-th train,
    [{name}_on_track{k}] and [{name}_end_track{k}] of the [i]-th train on
    track [k], and [last_section_exit].  Every call of [NewIntVar] or
    [NewBoolVar] yields a variable of its own, also when two trains have
    the same name. *)
Inductive var : Set :=
| VStart (i : nat)
| VEnd (i : nat)
| VOnTrack (i k : nat)
| VEndTrack (i k : nat)
| VLastExit.

(** [NewOptionalIntervalVar(start, size, end, is_present, name)] *)
Record interval := {
  iv_start : var;
  iv_size : Z;
  iv_end : var;
  iv_present : var }.

Inductive constraint : Type :=
| CDomain (x : var) (lo hi : Z)
    (** [NewIntVar(lo, hi, _)]; [NewBoolVar(_)] is the domain 0..1 *)
| CGe (x : var) (c : Z)
    (** [Add(x >= c)] *)
| CInterval (iv : interval)
    (** the interval itself: the library ensures that [is_present] implies
        [start + size == end], and a present interval has no negative
        size *)
| CEqOffsetIf (x y : var) (d : Z) (b : var)
    (** [Add(x == y + d).OnlyEnforceIf(b)] *)
| CSumEq (xs : list var) (c : Z)
    (** [Add(sum(xs) == c)] *)
| CMaxEq (target : var) (xs : list var)
    (** [AddMaxEquality(target, xs)] *)
| CNoOverlap (ivs : list interval).
    (** [AddNoOverlap(ivs)]: the present intervals can be put in a
        sequence in which each ends before the next starts *)

Record cp_model := {
  constraints : list constraint;
  objective : list (Z * var) (** [Minimize(sum(w * x))] *) }.

(** [solver.Value] *)
Definition valuation := var → Z.

Definition lit (v : valuation) (b : var) : bool := v b =? 1.

Definition sum_of (v : valuation) (xs : list var) : Z :=
  foldr (λ x acc, v x + acc) 0 xs.

(** Two intervals do not overlap when one of them is absent or one ends
    before the other starts. *)
Definition apart (v : valuation) (a b : interval) : bool :=
  negb (lit v (iv_present a)) || negb (lit v (iv_present b))
  || (v (iv_end a) <=? v (iv_start b))
  || (v (iv_end b) <=? v (iv_start a)).

Fixpoint no_overlap (v : valuation) (ivs : list interval) : bool :=
  match ivs with
  | [] => true
  | a :: rest => forallb (apart v a) rest && no_overlap v rest
  end.

Definition holds (v : valuation) (c : constraint) : bool :=
  match c with
  | CDomain x lo hi => (lo <=? v x) && (v x <=? hi)
  | CGe x c => c <=? v x
  | CInterval iv =>
      negb (lit v (iv_present iv))
      || ((0 <=? iv_size iv) && (v (iv_start iv) + iv_size iv =? v (iv_end iv)))
  | CEqOffsetIf x y d b => negb (lit v b) || (v x =? v y + d)
  | CSumEq xs c => sum_of v xs =? c
  | CMaxEq target xs =>
      match xs with
      | [] => false
      | x :: rest => v target =? foldl Z.max (v x) (v <$> rest)
      end
  | CNoOverlap ivs => no_overlap v ivs
  end.

Definition satisfies (v : valuation) (m : cp_model) : bool :=
  forallb (holds v) (constraints m).

Definition objective_value (v : valuation) (m : cp_model) : Z :=
  foldr (λ '(w, x) acc, w * v x + acc) 0 (objective m).

(** [solver.Solve(model)] *)
Inductive status : Set := UNKNOWN | MODEL_INVALID | FEASIBLE | INFEASIBLE | OPTIMAL.

(** A run of the solver: the status and the values [solver.Value] gives. *)
Definition solver := cp_model → status * valuation.

(** What the library promises: the values of a FEASIBLE or OPTIMAL answer
    satisfy every constraint, an OPTIMAL answer has the least objective,
    and INFEASIBLE is only said of a model without solution. *)
Definition sound (solve : solver) : Prop :=
  ∀ m,
    let '(st, v) := solve m in
    (st = FEASIBLE ∨ st = OPTIMAL → satisfies v m = true)
    ∧ (st = OPTIMAL →
         ∀ v', satisfies v' m = true → objective_value v m <= objective_value v' m)
    ∧ (st = INFEASIBLE → ∀ v', satisfies v' m = false).

End CpSat.
Import CpSat.

(** ** Building the model *)

Module Build.

(** [max(t["arrival_min"] for t in trains)]; [max] of an empty sequence is
    a [ValueError]. *)
Definition latest_arrival (ts : list train) : result Z :=
  map_result arrival_min ts ≫= max_of.

(** [max(max(t["durations"]) for t in trains)] *)
Definition longest_run (ts : list train) : result Z :=
  map_result (λ t, durations t ≫= max_of) ts ≫= max_of.

Definition horizon (ts : list train) : result Z :=
  latest ← latest_arrival ts;
  longest ← longest_run ts;
  Ok (latest + longest + 600).

(** The module-level variables the loops update. *)
Record builder := {
  model : list constraint;
  weighted_completion : list (Z * var);
  start_vars : gmap string var;
  end_vars : gmap string var;
  track_assignments : gmap string (list var);
  track_intervals : list (list interval) }.

Definition cp_model_of (st : builder) : cp_model :=
  {| constraints := model st; objective := weighted_completion st |}.

(** What the loop over the tracks updates for one train. *)
Record track_loop := {
  tl_model : list constraint;
  tl_intervals : list (list interval);
  track_bools : list var;
  end_candidates : list var }.

(** The body of [for tr_id, tr in enumerate(tracks)] for the [i]-th train. *)
Definition add_track (hz : Z) (i : nat) (t : train)
    (st : track_loop) (tr_id : nat) (tr : track) : result track_loop :=
  let b := VOnTrack i tr_id in
  duration ← durations t ≫= λ ds, index ds tr_id;
  let interval :=
    {| iv_start := VStart i; iv_size := duration;
       iv_end := VEnd i; iv_present := b |} in
  on_track ← index (tl_intervals st) tr_id;
  let end_candidate := VEndTrack i tr_id in
  Ok {| tl_model :=
          tl_model st ++
            [ CDomain b 0 1; CInterval interval;
              CDomain end_candidate 0 hz;
              CEqOffsetIf end_candidate (VStart i) duration b ];
        tl_intervals := <[tr_id := on_track ++ [interval]]> (tl_intervals st);
        track_bools := track_bools st ++ [b];
        end_candidates := end_candidates st ++ [end_candidate] |}.

(** The body of [for t in trains] that creates the variables of the
    [i]-th train. *)
Definition add_train (hz : Z) (trs : list track)
    (st : builder) (i : nat) (t : train) : result builder :=
  name ← train_name t;
  let start := VStart i in
  let end_ := VEnd i in
  arrival ← arrival_min t;
  tl ← for_each (add_track hz i t) 0 trs
         {| tl_model :=
              model st ++
                [CDomain start 0 hz; CDomain end_ 0 hz; CGe start arrival];
            tl_intervals := track_intervals st;
            track_bools := [];
            end_candidates := [] |};
  Ok {| model :=
          tl_model tl ++
            [CSumEq (track_bools tl) 1; CMaxEq end_ (end_candidates tl)];
        weighted_completion := weighted_completion st;
        start_vars := <[name := start]> (start_vars st);
        end_vars := <[name := end_]> (end_vars st);
        track_assignments := <[name := track_bools tl]> (track_assignments st);
        track_intervals := tl_intervals tl |}.

(** [end_vars[t["train_name"]]] *)
Definition end_var_of (st : builder) (t : train) : result var :=
  name ← train_name t;
  of_option KeyError (end_vars st !! name).

(** [weight = 10 - t["priority"]] *)
Definition weight (t : train) : result Z :=
  p ← priority t;
  Ok (10 - p).

(** [weight * end_vars[t["train_name"]]] *)
Definition weighted_end (st : builder) (t : train) : result (Z * var) :=
  w ← weight t;
  e ← end_var_of st t;
  Ok (w, e).

Definition empty_builder (trs : list track) : builder :=
  {| model := []; weighted_completion := [];
     start_vars := ∅; end_vars := ∅; track_assignments := ∅;
     track_intervals := replicate (length trs) [] |}.

Definition build (trs : list track) (ts : list train) (hz : Z) : result builder :=
  st ← for_each (add_train hz trs) 0 ts (empty_builder trs);
  per_track ← map_result (index (track_intervals st)) (seq 0 (length trs));
  ends ← map_result (end_var_of st) ts;
  weighted ← map_result (weighted_end st) ts;
  Ok {| model :=
          model st ++ (CNoOverlap <$> per_track) ++
            [CDomain VLastExit 0 hz; CMaxEq VLastExit ends];
        weighted_completion := weighted;
        start_vars := start_vars st;
        end_vars := end_vars st;
        track_assignments := track_assignments st;
        track_intervals := track_intervals st |}.

End Build.
Import Build.

(** ** Solving and writing the output *)

Module Output.

Record output_data := {
  out_trains : list train;
  last_section_clearance_time : string }.

(** [[tr for tr, b in enumerate(bs, k) if solver.Value(b) == 1]] *)
Fixpoint tracks_chosen (v : valuation) (k : nat) (bs : list var) : list nat :=
  match bs with
  | [] => []
  | b :: rest =>
      if v b =? 1 then k :: tracks_chosen v (S k) rest
      else tracks_chosen v (S k) rest
  end.

(** The solved entry minute, exit minute and 0-based track of a train. *)
Definition solved_values (st : builder) (v : valuation) (t : train)
    : result (Z * Z * nat) :=
  name ← train_name t;
  s ← v <$> of_option KeyError (start_vars st !! name);
  e ← v <$> of_option KeyError (end_vars st !! name);
  bs ← of_option KeyError (track_assignments st !! name);
  chosen_track ← index (tracks_chosen v 0 bs) 0;
  Ok (s, e, chosen_track).

(** [enriched = t.copy(); enriched.update({...})] *)
Definition enrich (t : train) (s e : Z) (chosen_track : nat) : result train :=
  entry ← Codec.minutes_to_clock s;
  exit ← Codec.minutes_to_clock e;
  Ok (<["assigned_track" := JInt (Z.of_nat chosen_track + 1)]>
        (<["section_exit_time" := JStr exit]>
           (<["section_entry_time" := JStr entry]> t))).

Definition extract_train (st : builder) (v : valuation) (t : train)
    : result train :=
  '(s, e, chosen_track) ← solved_values st v t;
  enrich t s e chosen_track.

Definition extract (st : builder) (v : valuation) (ts : list train)
    : result output_data :=
  enriched ← map_result (extract_train st v) ts;
  clearance ← Codec.minutes_to_clock (v VLastExit);
  Ok {| out_trains := enriched; last_section_clearance_time := clearance |}.

(** A lone surrogate in a [str]: the lead byte ED with a second byte of
    A0 or more. *)
Fixpoint has_surrogate (s : string) : bool :=
  match s with
  | String c r =>
      match r with
      | String c1 _ => (Codec.byte c =? 237) && (160 <=? Codec.byte c1)
      | EmptyString => false
      end || has_surrogate r
  | EmptyString => false
  end.

(** The UTF-8 codec of the output file encodes every string of a value
    but one with a lone surrogate. *)
Fixpoint encodable (j : json) : bool :=
  match j with
  | JStr s => negb (has_surrogate s)
  | JList l => forallb encodable l
  | JObj o =>
      forallb (λ item, negb (has_surrogate item.1) && encodable item.2) o
  | _ => true
  end.

Definition encodable_record (t : train) : bool :=
  forallb (λ item, negb (has_surrogate item.1) && encodable item.2)
    (map_to_list t).

(** [json.dump(output_data, f, indent=2, ensure_ascii=False)] into the
    file opened with [encoding="utf-8"]: the text is written as it is, so
    a string that cannot be encoded ends the run in the middle of the
    file.  The labels the script adds are ASCII. *)
Definition dump (output : output_data) : result unit :=
  if forallb encodable_record (out_trains output) then Ok ()
  else Raise UnicodeEncodeError.

(** What a run leaves behind: the exception that ended it, if any, the
    line it printed, the content of [output.json] if it wrote it, and
    whether it left the file cut short. *)
Record outcome := {
  uncaught : option exn;
  stdout : string;
  output_json : option output_data;
  cut_short : bool }.

(** The exit status of the interpreter. *)
Definition exit_status (o : outcome) : Z :=
  match uncaught o with
  | Some _ => 1
  | None => 0
  end.

(** A run that ends in an exception before it opens [output.json]. *)
Definition crashed (e : exn) : outcome :=
  {| uncaught := Some e; stdout := ""; output_json := None;
     cut_short := false |}.

Definition is_solution (st : status) : bool :=
  match st with
  | OPTIMAL | FEASIBLE => true
  | _ => false
  end.

(** Lines 130 to 133: the file is opened, which empties it, the output is
    written and the message printed. *)
Definition publish (output : output_data) : outcome :=
  match dump output with
  | Ok _ =>
      {| uncaught := None;
         stdout := "Section schedule saved to output.json";
         output_json := Some output;
         cut_short := false |}
  | Raise e =>
      {| uncaught := Some e;
         stdout := "";
         output_json := None;
         cut_short := true |}
  end.

(** Everything before [solver.Solve]: loaded trains, horizon, model. *)
Definition prepare (inp : input) : result (list train * Z * builder) :=
  ts ← Load.load (tracks inp) (trains inp);
  hz ← horizon ts;
  st ← build (tracks inp) ts hz;
  Ok (ts, hz, st).

Definition main (inp : input) (solve : solver) : outcome :=
  match prepare inp with
  | Raise e => crashed e
  | Ok (ts, _, st) =>
      let '(status, v) := solve (cp_model_of st) in
      if is_solution status then
        match extract st v ts with
        | Ok output => publish output
        | Raise e => crashed e
        end
      else
        {| uncaught := None;
           stdout := "No feasible solution found.";
           output_json := None;
           cut_short := false |}
  end.

End Output.
Import Output.

(** ** Closed forms used in the statements *)

(** The interval of the [i]-th train on track [k], of duration [d]. *)
Definition interval_of (i k : nat) (d : Z) : interval :=
  {| iv_start := VStart i; iv_size := d; iv_end := VEnd i;
     iv_present := VOnTrack i k |}.

(** What one turn of the loop over the tracks adds to the model. *)
Definition track_constraints (hz : Z) (i k : nat) (d : Z) : list constraint :=
  [ CDomain (VOnTrack i k) 0 1; CInterval (interval_of i k d);
    CDomain (VEndTrack i k) 0 hz;
    CEqOffsetIf (VEndTrack i k) (VStart i) d (VOnTrack i k) ].

Definition bools_of (i n : nat) : list var := VOnTrack i <$> seq 0 n.
Definition candidates_of (i n : nat) : list var := VEndTrack i <$> seq 0 n.

(** [c] is one of the constraints the [i]-th train adds, for [n] tracks of
    durations [ds] and a train that arrives at minute [a]. *)
Definition train_constraint (hz : Z) (n i : nat) (a : Z) (ds : list Z)
    (c : constraint) : Prop :=
  c = CDomain (VStart i) 0 hz ∨ c = CDomain (VEnd i) 0 hz
  ∨ c = CGe (VStart i) a
  ∨ (∃ k d, (k < n)%nat ∧ ds !! k = Some d ∧ c ∈ track_constraints hz i k d)
  ∨ c = CSumEq (bools_of i n) 1
  ∨ c = CMaxEq (VEnd i) (candidates_of i n).

(** The position of the last train called [name]: the one whose variables
    the dictionaries [start_vars], [end_vars] and [track_assignments] hold
    under that name once every train was added. *)
Fixpoint holder (name : string) (ts : list train) : option nat :=
  match ts with
  | [] => None
  | t :: rest =>
      match holder name rest with
      | Some j => Some (S j)
      | None =>
          match train_name t with
          | Ok n => if decide (n = name) then Some 0%nat else None
          | Raise _ => None
          end
      end
  end.

(** No two trains have the same name. *)
Definition distinct_names (ts : list train) : Prop :=
  ∀ i j t u name,
    ts !! i = Some t → ts !! j = Some u →
    train_name t = Ok name → train_name u = Ok name → i = j.

(** A loaded train: its record holds the durations [ds] of the tracks and
    an arrival minute. *)
Definition loaded (ds : list Z) (t : train) : Prop :=
  durations t = Ok ds ∧ ∃ a, arrival_min t = Ok a.

(** The shape of a model that was built: its constraints are those of the
    trains, one [AddNoOverlap] per track over the intervals of all trains
    on it, and the definition of [last_section_exit]; the dictionaries map
    a name to the variables of the last train of that name. *)
Record built (hz : Z) (trs : list track) (ts : list train) (ds : list Z)
    (st : builder) (ends : list var) : Prop := {
  built_model : ∀ c,
    c ∈ model st ↔
      (∃ j t a, ts !! j = Some t ∧ arrival_min t = Ok a
                ∧ train_constraint hz (length trs) j a ds c)
      ∨ (∃ k d, (k < length trs)%nat ∧ ds !! k = Some d
                ∧ c = CNoOverlap ((λ j, interval_of j k d) <$> seq 0 (length ts)))
      ∨ c = CDomain VLastExit 0 hz
      ∨ c = CMaxEq VLastExit ends;
  built_ends :
    Forall2 (λ t e, ∃ name j, train_name t = Ok name
                              ∧ holder name ts = Some j ∧ e = VEnd j) ts ends;
  built_weights :
    Forall2 (λ t we, ∃ p name j, priority t = Ok p ∧ train_name t = Ok name
                                 ∧ holder name ts = Some j
                                 ∧ we = (10 - p, VEnd j))
      ts (weighted_completion st);
  built_start_vars : ∀ name, start_vars st !! name = VStart <$> holder name ts;
  built_end_vars : ∀ name, end_vars st !! name = VEnd <$> holder name ts;
  built_track_assignments : ∀ name,
    track_assignments st !! name =
      (λ j, bools_of j (length trs)) <$> holder name ts }.

(** Everything that holds once the stages before the solver went through. *)
Record prepared (inp : input) (ts : list train) (hz : Z) (st : builder)
    (ds : list Z) (ends : list var) (latest longest : Z) : Prop := {
  prep_load : Load.load (tracks inp) (trains inp) = Ok ts;
  prep_durations : Load.track_durations (tracks inp) = Ok ds;
  prep_loaded : Forall (loaded ds) ts;
  prep_length : length ds = length (tracks inp);
  prep_latest : latest_arrival ts = Ok latest;
  prep_longest : longest_run ts = Ok longest;
  prep_horizon : hz = latest + longest + 600;
  prep_built : built hz (tracks inp) ts ds st ends }.

(** The solved entry minute, exit minute and 0-based track behind the
    [i]-th record of the schedule a run publishes. *)
Definition assignment (inp : input) (solve : solver) (i : nat)
    : option (Z * Z * nat) :=
  match prepare inp with
  | Ok (ts, _, st) =>
      let '(status, v) := solve (cp_model_of st) in
      if is_solution status then
        t ← ts !! i;
        match solved_values st v t with
        | Ok x => Some x
        | Raise _ => None
        end
      else None
  | Raise _ => None
  end.

(** The release time of the [i]-th train: its arrival in minutes, as the
    loading loop stores it. *)
Definition release (inp : input) (i : nat) : option Z :=
  match prepare inp with
  | Ok (ts, _, _) =>
      t ← ts !! i;
      match arrival_min t with
      | Ok a => Some a
      | Raise _ => None
      end
  | Raise _ => None
  end.

(** The loaded trains, the horizon and the builder of a run that reaches
    the solver. *)
Definition stages (inp : input) : list train * Z * builder :=
  match prepare inp with
  | Ok x => x
  | Raise _ => ([], 0, empty_builder [])
  end.

(** The fields the extraction sets on the copy of a train record. *)
Definition schedule_fields : list string :=
  ["section_entry_time"; "section_exit_time"; "assigned_track"]%string.

(** The fields of a train record the script itself writes: two while
    loading, three while extracting. *)
Definition written_fields : list string :=
  ["durations"; "arrival_min"]%string ++ schedule_fields.

(** The input fields of a train the dashboard (app.py) shows. *)
Definition dashboard_fields : list string :=
  ["id"; "train_name"; "type"; "priority"; "starting_station";
   "destination_station"; "days_of_running"; "departure_time";
   "arrival_time"; "travel_time"; "total_distance"; "classes_available";
   "fare_details"]%string.

(** ** Sample data *)

(** A solver that proposes the values [v] and answers FEASIBLE exactly
    when they satisfy the model it is given. *)
Definition checked_solver (v : valuation) : solver :=
  λ m, if satisfies v m then (FEASIBLE, v) else (UNKNOWN, v).

Definition sample_train (id : Z) (name arrival : string) (prio : Z) : train :=
  <["id" := JInt id]>
    (<["train_name" := JStr name]>
       (<["type" := JStr "express"]>
          (<["priority" := JInt prio]>
             (<["arrival_time" := JStr arrival]>
                (<["days_of_running" := JList [JStr "Mon"; JStr "Thu"]]>
                   (<["fare_details" := JObj [("sleeper"%string, JInt 450)]]> ∅)))))).

(** What a run wrote, and one record of it (empty when there is none). *)
Definition written (o : outcome) : output_data :=
  default {| out_trains := []; last_section_clearance_time := "" |}
    (output_json o).

Definition record (o : outcome) (i : nat) : train :=
  default ∅ (out_trains (written o) !! i).

(** One track of 20 minutes, two trains five minutes apart. *)
Definition two_on_one : input :=
  {| tracks := [ {| length_km := 20; speed_kmph := 60 |} ];
     trains := [ sample_train 1 "Rajdhani" "08:00" 1;
                 sample_train 2 "Passenger" "08:05" 5 ] |}.

Definition two_on_one_values : valuation :=
  λ x, match x with
       | VStart 0 => 480 | VEnd 0 => 500 | VEndTrack 0 _ => 500
       | VStart _ => 500 | VEnd _ => 520 | VEndTrack _ _ => 520
       | VOnTrack _ _ => 1
       | VLastExit => 520
       end.

Definition two_on_one_run : outcome :=
  main two_on_one (checked_solver two_on_one_values).

(** One track of 20 minutes and one train of priority 12. *)
Definition low_priority : input :=
  {| tracks := [ {| length_km := 20; speed_kmph := 60 |} ];
     trains := [ sample_train 7 "Goods" "08:00" 12 ] |}.

(** The train enters on arrival ... *)
Definition at_once : valuation :=
  λ x, match x with
       | VStart _ => 480 | VEnd _ => 500 | VEndTrack _ _ => 500
       | VOnTrack _ _ => 1
       | VLastExit => 500
       end.

(** ... or as late as the horizon (1100) allows. *)
Definition held_back : valuation :=
  λ x, match x with
       | VStart _ => 1080 | VEnd _ => 1100 | VEndTrack _ _ => 1100
       | VOnTrack _ _ => 1
       | VLastExit => 1100
       end.

(** All trains one after the other on track [k0], whose duration is [d]:
    the [j]-th train enters [j * d] minutes after the latest arrival. *)
Definition serial (latest d : Z) (k0 n : nat) : valuation :=
  λ x, match x with
       | VStart j => latest + Z.of_nat j * d
       | VEnd j => latest + (Z.of_nat j + 1) * d
       | VOnTrack _ k => if decide (k = k0) then 1 else 0
       | VEndTrack j k =>
           if decide (k = k0) then latest + (Z.of_nat j + 1) * d else 0
       | VLastExit => latest + Z.of_nat n * d
       end.

(** Two tracks of 20 and 30 minutes and one train. *)
Definition two_tracks : input :=
  {| tracks := [ {| length_km := 20; speed_kmph := 60 |};
                 {| length_km := 30; speed_kmph := 60 |} ];
     trains := [ sample_train 1 "Rajdhani" "08:00" 1 ] |}.

(** The train is on the first track from 480 on, the end candidate of the
    other track is 900 and so is the end. *)
Definition slack_values : valuation :=
  λ x, match x with
       | VStart _ => 480 | VEnd _ => 900
       | VOnTrack _ 0 => 1 | VOnTrack _ _ => 0
       | VEndTrack _ 0 => 500 | VEndTrack _ _ => 900
       | VLastExit => 900
       end.

Definition is_interval (c : constraint) : bool :=
  match c with
  | CInterval _ => true
  | _ => false
  end.

(** The model of an input, when the stages before the solver go through. *)
Definition model_of (inp : input) : option cp_model :=
  match prepare inp with
  | Ok (_, _, st) => Some (cp_model_of st)
  | Raise _ => None
  end.

(** No track at all. *)
Definition no_track : input :=
  {| tracks := []; trains := [ sample_train 1 "Rajdhani" "08:00" 1 ] |}.

(** A track whose speed is negative next to a regular one. *)
Definition backwards_track : input :=
  {| tracks := [ {| length_km := 30; speed_kmph := (-60) |};
                 {| length_km := 30; speed_kmph := 60 |} ];
     trains := [ sample_train 1 "Rajdhani" "08:00" 1 ] |}.

Definition on_second_track : valuation :=
  λ x, match x with
       | VStart _ => 480 | VEnd _ => 510
       | VOnTrack _ 1 => 1 | VOnTrack _ _ => 0
       | VEndTrack _ 1 => 510 | VEndTrack _ _ => 0
       | VLastExit => 510
       end.

(** A track whose speed is zero. *)
Definition blocked_track : input :=
  {| tracks := [ {| length_km := 30; speed_kmph := 60 |};
                 {| length_km := 30; speed_kmph := 0 |} ];
     trains := [ sample_train 1 "Rajdhani" "08:00" 1 ] |}.

(** One track of 960 minutes and two trains that arrive at midnight. *)
Definition two_long_runs : input :=
  {| tracks := [ {| length_km := 1024; speed_kmph := 64 |} ];
     trains := [ sample_train 1 "Rajdhani" "00:00" 1;
                 sample_train 2 "Passenger" "00:00" 5 ] |}.

(** Solvers that give up with a fixed status. *)
Definition gives_up (status : status) : solver := λ _, (status, λ _, 0).

(** Two trains of the same name on one track of 20 minutes; the first
    arrives at 10:00, the second at 08:00. *)
Definition same_name : input :=
  {| tracks := [ {| length_km := 20; speed_kmph := 60 |} ];
     trains := [ sample_train 1 "Express" "10:00" 1;
                 sample_train 2 "Express" "08:00" 2 ] |}.

Definition same_name_values : valuation :=
  λ x, match x with
       | VStart 0 => 600 | VEnd 0 => 620 | VEndTrack 0 _ => 620
       | VStart _ => 480 | VEnd _ => 500 | VEndTrack _ _ => 500
       | VOnTrack _ _ => 1
       | VLastExit => 500
       end.

Definition same_name_run : outcome :=
  main same_name (checked_solver same_name_values).

(** ** Auxiliary definitions for the time codec *)

(** The number of colons of a string. *)
Fixpoint colons (s : string) : nat :=
  match s with
  | EmptyString => 0%nat
  | String c r => if Ascii.eqb c ":" then S (colons r) else colons r
  end.

(** [HH:MM], both numbers zero padded to two digits. *)
Definition padded_time (h m : Z) : string :=
  (Codec.two_digits h +:+ ":" +:+ Codec.two_digits m)%string.

(** The 12-hour label of the time [h]:[m] of a day. *)
(** The label [strftime] gives a minute of the day. *)
Definition label_of_minute (minute_of_day : Z) : string :=
  Codec.strftime
    {| Codec.dt_ordinal := Codec.base_ordinal;
       Codec.dt_hour := minute_of_day / 60;
       Codec.dt_minute := minute_of_day mod 60;
       Codec.dt_second := 0 |}.

Definition label_of (h m : Z) : string :=
  let hour12 := if h mod 12 =? 0 then 12 else h mod 12 in
  let am_pm : string := if h <? 12 then "AM" else "PM" in
  (Codec.two_digits hour12 +:+ ":" +:+ Codec.two_digits m +:+ " "
     +:+ am_pm)%string.

(** Reads a label [HH:MM AM] or [HH:MM PM] back as a minute of the day;
    only used to tell labels apart. *)
Definition minute_of_label (s : string) : Z :=
  match s with
  | String h1 (String h2 (String _ (String m1 (String m2 (String _ (String p _)))))) =>
      let hour12 := 10 * Codec.digit_val h1 + Codec.digit_val h2 in
      let minute := 10 * Codec.digit_val m1 + Codec.digit_val m2 in
      let half := if Ascii.eqb p "P" then 12 else 0 in
      (hour12 mod 12 + half) * 60 + minute
  | _ => 0
  end.

(** ** Auxiliary definitions for the extraction *)

(** The list the comprehension of line 118 builds for the [i]-th train,
    before its first element is taken. *)
Definition tracks_read (inp : input) (solve : solver) (i : nat)
    : option (list nat) :=
  match prepare inp with
  | Ok (ts, _, st) =>
      let '(status, v) := solve (cp_model_of st) in
      if is_solution status then
        t ← ts !! i;
        match train_name t with
        | Ok name => tracks_chosen v 0 <$> track_assignments st !! name
        | Raise _ => None
        end
      else None
  | Raise _ => None
  end.

(** The trains a successful [Load.load] returns (none otherwise). *)
Definition loaded_trains (trs : list track) (ts : list train) : list train :=
  match Load.load trs ts with
  | Ok ts' => ts'
  | Raise _ => []
  end.

(** A train record without arrival time after a complete one. *)
Definition no_arrival : input :=
  {| tracks := [ {| length_km := 20; speed_kmph := 60 |} ];
     trains := [ sample_train 1 "Rajdhani" "08:00" 1;
                 delete "arrival_time"%string
                   (sample_train 2 "Passenger" "08:05" 5) ] |}.

(** A train record whose arrival time is a number, after a complete one. *)
Definition arrival_number : input :=
  {| tracks := [ {| length_km := 20; speed_kmph := 60 |} ];
     trains := [ sample_train 1 "Rajdhani" "08:00" 1;
                 <["arrival_time" := JInt 805]>
                   (sample_train 2 "Passenger" "08:05" 5) ] |}.

(** A train record whose arrival time is a 12-hour label, after a complete
    one. *)
Definition arrival_label : input :=
  {| tracks := [ {| length_km := 20; speed_kmph := 60 |} ];
     trains := [ sample_train 1 "Rajdhani" "08:00" 1;
                 sample_train 2 "Passenger" "08:05 AM" 5 ] |}.

(** The trains of [two_on_one], the first with an input field named
    [durations]. *)
Definition tagged : input :=
  {| tracks := [ {| length_km := 20; speed_kmph := 60 |} ];
     trains := [ <["durations" := JStr "daily"]>
                   (sample_train 1 "Rajdhani" "08:00" 1);
                 sample_train 2 "Passenger" "08:05" 5 ] |}.

Definition tagged_run : outcome :=
  main tagged (checked_solver two_on_one_values).

(** The code point U+D83D, half of a surrogate pair, on its own. *)
Definition lone_surrogate : string :=
  String (ascii_of_nat 237)
    (String (ascii_of_nat 160) (String (ascii_of_nat 189) EmptyString)).

(** The trains of [two_on_one], the first with a remark that holds a lone
    surrogate. *)
Definition unpaired : input :=
  {| tracks := [ {| length_km := 20; speed_kmph := 60 |} ];
     trains := [ <["remark" := JStr lone_surrogate]>
                   (sample_train 1 "Rajdhani" "08:00" 1);
                 sample_train 2 "Passenger" "08:05" 5 ] |}.

(** Tracks but no train. *)
Definition no_train : input :=
  {| tracks := [ {| length_km := 20; speed_kmph := 60 |} ]; trains := [] |}.

(** ** The dashboard (app.py) *)

(** The parts of the dashboard that compute on the records of
    [output.json]: the rows of the table and the record behind the
    selected name.  What the page shows of them is left to the library. *)
Module App.

Definition to_upper (c : ascii) : ascii :=
  let n := nat_of_ascii c in
  if ((97 <=? n) && (n <=? 122))%nat then ascii_of_nat (n - 32) else c.

Definition to_lower (c : ascii) : ascii :=
  let n := nat_of_ascii c in
  if ((65 <=? n) && (n <=? 90))%nat then ascii_of_nat (n + 32) else c.

Fixpoint lower (s : string) : string :=
  match s with
  | EmptyString => EmptyString
  | String c r => String (to_lower c) (lower r)
  end.

(** [s.capitalize()], on ASCII input *)
Definition capitalize (s : string) : string :=
  match s with
  | EmptyString => EmptyString
  | String c r => String (to_upper c) (lower r)
  end.

(** [t.get("type", "").capitalize()]; only strings have the method. *)
Definition type_label (t : train) : result string :=
  match t !! "type"%string with
  | None => Ok (capitalize "")
  | Some (JStr s) => Ok (capitalize s)
  | Some _ => Raise AttributeError
  end.

(** One row of the table: the dictionary of lines 27 to 37, its columns in
    order. *)
Definition table_row (t : train) : result (list (string * json)) :=
  id ← getitem t "id";
  name ← getitem t "train_name";
  type ← type_label t;
  prio ← getitem t "priority";
  origin ← getitem t "starting_station";
  destination ← getitem t "destination_station";
  entry ← getitem t "section_entry_time";
  exit ← getitem t "section_exit_time";
  assigned ← getitem t "assigned_track";
  Ok [ ("Train ID"%string, id); ("Train Name"%string, name);
       ("Type"%string, JStr type); ("Priority"%string, prio);
       ("From"%string, origin); ("To"%string, destination);
       ("Section Entry"%string, entry); ("Section Exit"%string, exit);
       ("Track"%string, assigned) ].

(** The list the data frame is made of. *)
Definition table (ts : list train) : result (list (list (string * json))) :=
  map_result table_row ts.

(** What [next(t for t in trains if t["train_name"] == selected_train)]
    gives for a selected name that is a string: a record, [StopIteration],
    or the exception of a record without name. *)
Inductive selection : Type :=
| Selected (t : train)
| StopIteration
| SelectionError (e : exn).

Fixpoint select_train (selected : string) (ts : list train) : selection :=
  match ts with
  | [] => StopIteration
  | t :: rest =>
      match t !! "train_name"%string with
      | None => SelectionError KeyError
      | Some (JStr s) =>
          if decide (s = selected) then Selected t
          else select_train selected rest
      | Some _ => select_train selected rest
      end
  end.

(** [if selected_train: train = next(...)]: the details are looked up for
    a selected name that is true, which a string is unless it is empty. *)
Definition train_details (selected : string) (ts : list train)
    : option selection :=
  if decide (selected = EmptyString) then None
  else Some (select_train selected ts).

End App.

(** The value of a column in a row of the table. *)
Fixpoint column (name : string) (row : list (string * json)) : option json :=
  match row with
  | [] => None
  | (c, x) :: rest => if decide (c = name) then Some x else column name rest
  end.

(** The columns of the table that show an input field as it is. *)
Definition input_columns : list (string * string) :=
  [ ("Train ID", "id"); ("Train Name", "train_name"); ("Priority", "priority");
    ("From", "starting_station"); ("To", "destination_station") ]%string.

(** The fields of an input record the table cannot do without, besides
    the name and the priority the optimizer reads itself. *)
Definition listed (t : train) : Prop :=
  is_Some (t !! "id"%string)
  ∧ is_Some (t !! "starting_station"%string)
  ∧ is_Some (t !! "destination_station"%string)
  ∧ (t !! "type"%string = None ∨ ∃ s, t !! "type"%string = Some (JStr s)).

(** Two trains with their stations, on one track of 20 minutes. *)
Definition listed_train (id : Z) (name arrival : string) (prio : Z) : train :=
  <["starting_station" := JStr "New Delhi"]>
    (<["destination_station" := JStr "Howrah"]>
       (sample_train id name arrival prio)).

Definition two_listed : input :=
  {| tracks := [ {| length_km := 20; speed_kmph := 60 |} ];
     trains := [ listed_train 1 "Rajdhani" "08:00" 1;
                 listed_train 2 "Passenger" "08:05" 5 ] |}.

Definition two_listed_run : outcome :=
  main two_listed (checked_solver two_on_one_values).

(** Trains but no track at all, as in [no_track], with a second train. *)
Definition no_track_two : input :=
  {| tracks := [];
     trains := [ sample_train 1 "Rajdhani" "08:00" 1;
                 sample_train 2 "Passenger" "08:05" 5 ] |}.

(** * Properties *)

(** ** The error monad *)

Lemma bind_Ok {A B} (r : result A) (k : A → result B) (b : B) :
  r ≫= k = Ok b ↔ ∃ a, r = Ok a ∧ k a = Ok b.
Proof.
  destruct r as [a|e]; simpl; split.
  - intros H. by exists a.
  - by intros (a' & [= <-] & H).
  - discriminate.
  - by intros (a' & [=] & _).
Qed.

Lemma fmap_Ok {A B} (f : A → B) (r : result A) (b : B) :
  f <$> r = Ok b ↔ ∃ a, r = Ok a ∧ b = f a.
Proof.
  destruct r as [a|e]; simpl; split.
  - intros [= <-]. by exists a.
  - by intros (a' & [= <-] & ->).
  - discriminate.
  - by intros (a' & [=] & _).
Qed.

Lemma of_option_Ok {A} (e : exn) (o : option A) (a : A) :
  of_option e o = Ok a ↔ o = Some a.
Proof. destruct o; simpl; split; congruence. Qed.

(** Splits a successful computation into its successful steps. *)
Ltac inv_ok :=
  repeat match goal with
  | H : _ ≫= _ = Ok _ |- _ =>
      let a := fresh "a" in
      let Ha := fresh "H" a in
      apply bind_Ok in H as (a & Ha & H)
  | H : _ <$> _ = Ok _ |- _ =>
      let a := fresh "a" in
      let Ha := fresh "H" a in
      apply fmap_Ok in H as (a & Ha & H)
  | H : of_option _ _ = Ok _ |- _ => apply of_option_Ok in H
  | H : Ok _ = Ok _ |- _ => injection H as H
  | H : Raise _ = Ok _ |- _ => discriminate H
  end.

Lemma map_result_Ok {A B} (f : A → result B) (l : list A) (l' : list B) :
  map_result f l = Ok l' ↔ Forall2 (λ x y, f x = Ok y) l l'.
Proof.
  revert l'. induction l as [|x l IH]; intros l'; simpl.
  - split; [intros [= <-]; constructor | by inversion 1].
  - split.
    + intros H. inv_ok. subst l'. constructor; [done | by apply IH].
    + inversion 1 as [|? y ? ys Hx Hl]; subst.
      rewrite Hx. simpl. apply IH in Hl. by rewrite Hl.
Qed.

Lemma map_result_length {A B} (f : A → result B) (l : list A) (l' : list B) :
  map_result f l = Ok l' → length l' = length l.
Proof. intros H%map_result_Ok. symmetry. by eapply Forall2_length. Qed.

Lemma map_result_lookup {A B} (f : A → result B) (l : list A) (l' : list B)
    (i : nat) (x : A) :
  map_result f l = Ok l' → l !! i = Some x → ∃ y, l' !! i = Some y ∧ f x = Ok y.
Proof.
  intros H%map_result_Ok Hx.
  destruct (Forall2_lookup_l _ _ _ _ _ H Hx) as (y & Hy & Hf). eauto.
Qed.

(** ** Loading *)

Lemma as_int_list_JInt (ds : list Z) : as_int_list (JInt <$> ds) = Ok ds.
Proof. induction ds as [|d ds IH]; csimpl; [done | by rewrite IH]. Qed.

Lemma track_durations_length (trs : list track) (ds : list Z) :
  Load.track_durations trs = Ok ds → length ds = length trs.
Proof. apply map_result_length. Qed.

Lemma track_durations_lookup (trs : list track) (ds : list Z) (k : nat) (d : Z) :
  Load.track_durations trs = Ok ds → ds !! k = Some d →
  ∃ tr, trs !! k = Some tr ∧ Load.time_min tr = Ok d.
Proof.
  intros H%map_result_Ok Hd.
  destruct (Forall2_lookup_r _ _ _ _ _ H Hd) as (tr & Htr & Htm). eauto.
Qed.

(** What the loading loop leaves in a train record: the durations of the
    tracks, the arrival in minutes, and every other field as it was. *)
Lemma load_train_Ok (trs : list track) (t t' : train) :
  Load.load_train trs t = Ok t' →
  ∃ ds a,
    Load.track_durations trs = Ok ds
    ∧ durations t' = Ok ds
    ∧ arrival_min t' = Ok a
    ∧ ∀ key : string,
        key ≠ "durations"%string → key ≠ "arrival_min"%string → t' !! key = t !! key.
Proof.
  unfold Load.load_train. intros H.
  apply bind_Ok in H as (ds & Hds & H).
  apply bind_Ok in H as (time_str & _ & H).
  apply bind_Ok in H as (arrival & _ & [= <-]).
  exists ds, arrival. split; [done|]. split; [|split].
  - unfold durations, getitem.
    rewrite lookup_insert_ne by done. rewrite lookup_insert_eq. simpl.
    apply as_int_list_JInt.
  - unfold arrival_min, getitem. by rewrite lookup_insert_eq.
  - intros key ? ?. by rewrite !lookup_insert_ne.
Qed.

Lemma load_Ok (trs : list track) (ts ts' : list train) :
  Load.load trs ts = Ok ts' ↔ Forall2 (λ t t', Load.load_train trs t = Ok t') ts ts'.
Proof. apply map_result_Ok. Qed.

Lemma load_loaded (trs : list track) (ts ts' : list train) :
  Load.load trs ts = Ok ts' →
  ts' = [] ∨ ∃ ds, Load.track_durations trs = Ok ds ∧ Forall (loaded ds) ts'.
Proof.
  intros H%load_Ok. destruct H as [|t t' ts ts' Ht Hts]; [by left | right].
  destruct (load_train_Ok _ _ _ Ht) as (ds & a & Hds & Hd & Ha & _).
  exists ds. split; [done|]. constructor; [by split; eauto|].
  induction Hts as [|u u' us us' Hu _ IH]; constructor; [|done].
  destruct (load_train_Ok _ _ _ Hu) as (ds' & a' & Hds' & Hd' & Ha' & _).
  rewrite Hds in Hds'. injection Hds' as <-. split; eauto.
Qed.

Lemma load_frame (trs : list track) (ts ts' : list train) (i : nat) (t' : train) :
  Load.load trs ts = Ok ts' → ts' !! i = Some t' →
  ∃ t, ts !! i = Some t
       ∧ ∀ key : string,
           key ≠ "durations"%string → key ≠ "arrival_min"%string →
           t' !! key = t !! key.
Proof.
  intros H%load_Ok Hi.
  destruct (Forall2_lookup_r _ _ _ _ _ H Hi) as (t & Ht & Hload).
  exists t. split; [done|].
  by destruct (load_train_Ok _ _ _ Hload) as (_ & _ & _ & _ & _ & Hkeys).
Qed.

Example parse_0805 : Codec.parse_time_to_minutes "08:05" = Ok 485.
Proof. reflexivity. Qed.

Example parse_bad : Codec.parse_time_to_minutes "8h05" = Raise ValueError.
Proof. reflexivity. Qed.

(** A separator character is no white space for [int]. *)
Example int_after_separator :
  Codec.int_of_str (String (ascii_of_nat 28) "12") = Raise ValueError.
Proof. reflexivity. Qed.

(** Full-width digits are digits. *)
Example parse_full_width : Codec.parse_time_to_minutes "０８:００" = Ok 480.
Proof. reflexivity. Qed.

Example clock_500 : Codec.minutes_to_clock 500 = Ok "08:20 AM"%string.
Proof. reflexivity. Qed.

Example clock_noon : Codec.minutes_to_clock 720 = Ok "12:00 PM"%string.
Proof. reflexivity. Qed.

Example clock_midnight : Codec.minutes_to_clock 0 = Ok "12:00 AM"%string.
Proof. reflexivity. Qed.

Example clock_before_base : Codec.minutes_to_clock (-1) = Ok "11:59 PM"%string.
Proof. reflexivity. Qed.

Example clock_last_minute :
  Codec.minutes_to_clock 4260188159 = Ok "11:59 PM"%string.
Proof. reflexivity. Qed.

Example clock_after_last_minute :
  Codec.minutes_to_clock 4260188160 = Raise OverflowError.
Proof. reflexivity. Qed.


(** A string the output file cannot encode ends the run in the middle of
    the write. *)
Example unpaired_run :
  main unpaired (checked_solver two_on_one_values)
  = {| uncaught := Some UnicodeEncodeError;
       stdout := EmptyString;
       output_json := None;
       cut_short := true |}.
Proof. reflexivity. Qed.

(** ** The clock conversion *)

Lemma timedelta_of_minutes_in_range (m : Z) :
  Codec.min_minutes <= m <= Codec.max_minutes →
  Codec.timedelta_of_minutes m
  = Ok {| Codec.td_days := m / 1440; Codec.td_seconds := m mod 1440 * 60 |}.
Proof.
  unfold Codec.min_minutes, Codec.max_minutes, Codec.base_ordinal,
    Codec.max_ordinal, Codec.timedelta_of_minutes, Codec.max_delta_days.
  intros H.
  assert (Hd : m * 60 / 86400 = m / 1440) by (Z.div_mod_to_equations; lia).
  assert (Hs : (m * 60) mod 86400 = m mod 1440 * 60)
    by (Z.div_mod_to_equations; lia).
  rewrite Hd, Hs.
  assert (Hb : (Z.abs (m / 1440) <=? 999999999) = true)
    by (apply Z.leb_le; Z.div_mod_to_equations; lia).
  by rewrite Hb.
Qed.

Lemma minutes_to_clock_in_range (m : Z) :
  Codec.min_minutes <= m <= Codec.max_minutes →
  Codec.minutes_to_clock m = Ok (label_of_minute (m mod 1440)).
Proof.
  intros H. unfold Codec.minutes_to_clock.
  rewrite (timedelta_of_minutes_in_range m H). cbn [mbind result_bind].
  unfold Codec.min_minutes, Codec.max_minutes, Codec.base_ordinal,
    Codec.max_ordinal in H.
  unfold Codec.datetime_add, Codec.base_time, Codec.base_ordinal,
    Codec.max_ordinal. cbn [Codec.dt_ordinal Codec.dt_hour Codec.dt_minute
    Codec.dt_second Codec.td_days Codec.td_seconds].
  set (r := m mod 1440).
  assert (Hr : 0 <= r < 1440) by (apply Z.mod_pos_bound; lia).
  replace (0 * 3600 + 0 * 60 + 0 + r * 60) with (r * 60) by lia.
  assert (Hq : r * 60 / 86400 = 0) by (Z.div_mod_to_equations; lia).
  assert (Hs : (r * 60) mod 86400 = r * 60) by (Z.div_mod_to_equations; lia).
  rewrite Hq, Hs.
  assert (Hb : (0 <? 693596 + m / 1440 + 0) && (693596 + m / 1440 + 0 <=? 3652059)
               = true).
  { apply andb_true_iff. split; [apply Z.ltb_lt|apply Z.leb_le];
      Z.div_mod_to_equations; lia. }
  rewrite Hb. cbn [mbind result_bind]. f_equal.
  unfold label_of_minute, Codec.strftime.
  cbn [Codec.dt_hour Codec.dt_minute].
  assert (Hh : r * 60 / 3600 = r / 60) by (Z.div_mod_to_equations; lia).
  assert (Hm : (r * 60) mod 3600 / 60 = r mod 60)
    by (Z.div_mod_to_equations; lia).
  by rewrite Hh, Hm.
Qed.

Lemma minutes_to_clock_beyond (m : Z) :
  Codec.max_minutes < m → Codec.minutes_to_clock m = Raise OverflowError.
Proof.
  unfold Codec.max_minutes, Codec.base_ordinal, Codec.max_ordinal.
  intros H. unfold Codec.minutes_to_clock, Codec.timedelta_of_minutes.
  destruct (Z.abs (m * 60 / 86400) <=? Codec.max_delta_days); [|done].
  cbn [mbind result_bind].
  unfold Codec.datetime_add, Codec.base_time, Codec.base_ordinal,
    Codec.max_ordinal. cbn [Codec.dt_ordinal Codec.dt_hour Codec.dt_minute
    Codec.dt_second Codec.td_days Codec.td_seconds].
  assert (Hb : (693596 + m * 60 / 86400
                  + (0 * 3600 + 0 * 60 + 0 + (m * 60) mod 86400) / 86400
                <=? 3652059) = false).
  { apply Z.leb_gt. Z.div_mod_to_equations. lia. }
  by rewrite Hb, andb_false_r.
Qed.

Lemma minutes_to_clock_below (m : Z) :
  m < Codec.min_minutes → Codec.minutes_to_clock m = Raise OverflowError.
Proof.
  unfold Codec.min_minutes, Codec.base_ordinal.
  intros H. unfold Codec.minutes_to_clock, Codec.timedelta_of_minutes.
  destruct (Z.abs (m * 60 / 86400) <=? Codec.max_delta_days); [|done].
  cbn [mbind result_bind].
  unfold Codec.datetime_add, Codec.base_time, Codec.base_ordinal,
    Codec.max_ordinal. cbn [Codec.dt_ordinal Codec.dt_hour Codec.dt_minute
    Codec.dt_second Codec.td_days Codec.td_seconds].
  assert (Hb : (0 <? 693596 + m * 60 / 86400
                  + (0 * 3600 + 0 * 60 + 0 + (m * 60) mod 86400) / 86400)
               = false).
  { apply Z.ltb_ge. Z.div_mod_to_equations. lia. }
  by rewrite Hb.
Qed.

(** C10 (as amended).  For [0 <= m] the conversion of [m] is the
    conversion of [m mod 1440], a clock label, as long as
    [m <= max_minutes], the last minute of the year 9999 counted from the
    base time; for every greater [m] the conversion raises
    [OverflowError]. *)
Theorem minutes_to_clock_periodic (m : Z) :
  0 <= m →
  Codec.minutes_to_clock m
  = (if m <=? Codec.max_minutes then Codec.minutes_to_clock (m mod 1440)
     else Raise OverflowError)
  ∧ is_ok (Codec.minutes_to_clock (m mod 1440)) = true.
Proof.
  intros Hlo.
  assert (Hr : 0 <= m mod 1440 < 1440) by (apply Z.mod_pos_bound; lia).
  assert (Hmin : Codec.min_minutes < 0) by reflexivity.
  assert (Hmax : 1440 < Codec.max_minutes) by reflexivity.
  split.
  - destruct (Z.leb_spec m Codec.max_minutes) as [Hhi|Hhi].
    + rewrite !minutes_to_clock_in_range by lia. by rewrite Z.mod_mod.
    + by apply minutes_to_clock_beyond.
  - by rewrite minutes_to_clock_in_range by lia.
Qed.

Lemma minutes_to_clock_periodic_witness :
  Codec.minutes_to_clock 1945
  = (if 1945 <=? Codec.max_minutes then Codec.minutes_to_clock (1945 mod 1440)
     else Raise OverflowError)
  ∧ is_ok (Codec.minutes_to_clock (1945 mod 1440)) = true.
Proof. apply (minutes_to_clock_periodic 1945). lia. Defined.

(** C10 fails as stated: the first minute after the last day of year 9999
    raises [OverflowError], while its residue modulo 1440 converts. *)
Lemma minutes_to_clock_not_periodic :
  ¬ (∀ m : Z, 0 <= m →
       Codec.minutes_to_clock m = Codec.minutes_to_clock (m mod 1440)).
Proof.
  intros H. specialize (H (Codec.max_minutes + 1)).
  vm_compute in H. by specialize (H ltac:(discriminate)).
Qed.

(** ** The loop over the tracks *)

Section track_loop.
Context (hz : Z) (i : nat) (t : train) (ds : list Z).
Hypothesis Hds : durations t = Ok ds.

Lemma add_track_Ok (st st' : track_loop) (k : nat) (tr : track) :
  add_track hz i t st k tr = Ok st' →
  ∃ d row,
    ds !! k = Some d ∧ tl_intervals st !! k = Some row
    ∧ tl_model st' = tl_model st ++ track_constraints hz i k d
    ∧ tl_intervals st' = <[k := row ++ [interval_of i k d]]> (tl_intervals st)
    ∧ track_bools st' = track_bools st ++ [VOnTrack i k]
    ∧ end_candidates st' = end_candidates st ++ [VEndTrack i k].
Proof.
  unfold add_track. rewrite Hds. simpl. intros H.
  apply bind_Ok in H as (d & Hd%of_option_Ok & H).
  apply bind_Ok in H as (row & Hrow%of_option_Ok & [= <-]).
  by exists d, row.
Qed.

Lemma track_loop_Ok (trs : list track) (k : nat) (st st' : track_loop) :
  for_each (add_track hz i t) k trs st = Ok st' →
  track_bools st' = track_bools st ++ (VOnTrack i <$> seq k (length trs))
  ∧ end_candidates st' = end_candidates st ++ (VEndTrack i <$> seq k (length trs))
  ∧ (∀ c, c ∈ tl_model st' ↔
          c ∈ tl_model st
          ∨ ∃ k' d, (k ≤ k' < k + length trs)%nat ∧ ds !! k' = Some d
                    ∧ c ∈ track_constraints hz i k' d)
  ∧ length (tl_intervals st') = length (tl_intervals st)
  ∧ (∀ k' row,
       tl_intervals st !! k' = Some row →
       tl_intervals st' !! k' =
         if decide (k ≤ k' < k + length trs)%nat
         then d ← ds !! k'; Some (row ++ [interval_of i k' d])
         else Some row).
Proof.
  revert k st. induction trs as [|tr trs IH]; intros k st H; simpl in H.
  - injection H as <-. rewrite !app_nil_r. repeat split; try done.
    + by left.
    + intros [?|(k' & d & ? & _)]; [done | simpl in *; lia].
    + intros k' row Hrow. case_decide; [simpl in *; lia | done].
  - apply bind_Ok in H as (st1 & H1 & H).
    apply add_track_Ok in H1 as (d & row & Hd & Hrow & Hm & Hi & Hb & Hc).
    apply IH in H as (Hb' & Hc' & Hm' & Hlen & Hi').
    rewrite Hb', Hc', Hb, Hc, Hlen, Hi, length_insert. simpl.
    rewrite <- !app_assoc. repeat split; try done.
    + intros Hin. apply Hm' in Hin as [Hin|(k' & d' & Hk' & Hd' & Hin)].
      * rewrite Hm in Hin. apply elem_of_app in Hin as [Hin|Hin]; [by left|].
        right. exists k, d. split; [lia | done].
      * right. exists k', d'. split; [lia | done].
    + intros [Hin|(k' & d' & Hk' & Hd' & Hin)]; apply Hm'.
      * left. rewrite Hm. apply elem_of_app. by left.
      * destruct (decide (k' = k)) as [->|Hne].
        -- left. rewrite Hm. apply elem_of_app. right. congruence.
        -- right. exists k', d'. split; [lia | done].
    + intros k' row' Hrow'.
      destruct (decide (k' = k)) as [->|Hne].
      * rewrite (Hi' k (row ++ [interval_of i k d])).
        2:{ rewrite Hi. apply list_lookup_insert_eq. by eapply lookup_lt_Some. }
        rewrite decide_False by lia. rewrite decide_True by lia.
        rewrite Hd. simpl. congruence.
      * rewrite (Hi' k' row').
        2:{ rewrite Hi. by rewrite list_lookup_insert_ne. }
        repeat case_decide; try done; lia.
Qed.

End track_loop.

(** ** The loop over the trains *)

Section train_loop.
Context (hz : Z) (trs : list track) (ds : list Z).

Lemma add_train_Ok (st st' : builder) (i : nat) (t : train) :
  durations t = Ok ds →
  add_train hz trs st i t = Ok st' →
  ∃ name a,
    train_name t = Ok name ∧ arrival_min t = Ok a
    ∧ (∀ c, c ∈ model st' ↔
            c ∈ model st ∨ train_constraint hz (length trs) i a ds c)
    ∧ start_vars st' = <[name := VStart i]> (start_vars st)
    ∧ end_vars st' = <[name := VEnd i]> (end_vars st)
    ∧ track_assignments st' =
        <[name := bools_of i (length trs)]> (track_assignments st)
    ∧ length (track_intervals st') = length (track_intervals st)
    ∧ (∀ k row,
         track_intervals st !! k = Some row →
         track_intervals st' !! k =
           if decide (k < length trs)%nat
           then d ← ds !! k; Some (row ++ [interval_of i k d])
           else Some row).
Proof.
  intros Hds. unfold add_train. intros H.
  apply bind_Ok in H as (name & Hname & H).
  apply bind_Ok in H as (a & Ha & H).
  apply bind_Ok in H as (tl & Htl & [= <-]).
  apply (track_loop_Ok hz i t ds Hds) in Htl
    as (Hb & Hc & Hm & Hlen & Hi). simpl in *.
  exists name, a. rewrite Hb, Hc. repeat split; try done.
  - intros Hin. apply elem_of_app in Hin as [Hin|Hin].
    + apply Hm in Hin as [Hin|(k & d & Hk & Hd & Hin)].
      * apply elem_of_app in Hin as [Hin|Hin]; [by left | right].
        unfold train_constraint. rewrite !elem_of_cons, elem_of_nil in Hin. tauto.
      * right. unfold train_constraint. do 3 right. left.
        exists k, d. split; [lia | done].
    + right. unfold train_constraint, bools_of, candidates_of.
      rewrite !elem_of_cons, elem_of_nil in Hin. tauto.
  - intros [Hin|Hin]; apply elem_of_app.
    + left. apply Hm. left. apply elem_of_app. by left.
    + destruct Hin as [-> | [-> | [-> | [(k & d & Hk & Hd & Hin) | [-> | ->] ] ] ] ].
      * left. apply Hm. left. rewrite elem_of_app, !elem_of_cons. tauto.
      * left. apply Hm. left. rewrite elem_of_app, !elem_of_cons. tauto.
      * left. apply Hm. left. rewrite elem_of_app, !elem_of_cons. tauto.
      * left. apply Hm. right. exists k, d. split; [lia | done].
      * right. unfold bools_of. rewrite !elem_of_cons. tauto.
      * right. unfold candidates_of. rewrite !elem_of_cons. tauto.
  - intros k row Hrow. rewrite (Hi k row Hrow).
    repeat case_decide; try done; lia.
Qed.

Lemma train_loop_Ok (ts : list train) (i : nat) (st st' : builder) :
  Forall (loaded ds) ts →
  for_each (add_train hz trs) i ts st = Ok st' →
  (∀ c, c ∈ model st' ↔
        c ∈ model st
        ∨ ∃ j t a, ts !! j = Some t ∧ arrival_min t = Ok a
                   ∧ train_constraint hz (length trs) (i + j) a ds c)
  ∧ (∀ name,
       start_vars st' !! name =
         match holder name ts with
         | Some j => Some (VStart (i + j))
         | None => start_vars st !! name
         end)
  ∧ (∀ name,
       end_vars st' !! name =
         match holder name ts with
         | Some j => Some (VEnd (i + j))
         | None => end_vars st !! name
         end)
  ∧ (∀ name,
       track_assignments st' !! name =
         match holder name ts with
         | Some j => Some (bools_of (i + j) (length trs))
         | None => track_assignments st !! name
         end)
  ∧ length (track_intervals st') = length (track_intervals st)
  ∧ (∀ k row d,
       track_intervals st !! k = Some row → (k < length trs)%nat →
       ds !! k = Some d →
       track_intervals st' !! k =
         Some (row ++ ((λ j, interval_of j k d) <$> seq i (length ts)))).
Proof.
  intros Hall. revert i st.
  induction Hall as [|t ts [Hds _] _ IH]; intros i st H; simpl in H.
  - injection H as <-. repeat split; try done.
    + by left.
    + intros [?|(j & t & a & Hj & _)]; [done | by rewrite lookup_nil in Hj].
    + intros k row d Hrow _ _. simpl. by rewrite app_nil_r.
  - apply bind_Ok in H as (st1 & H1 & H).
    apply (add_train_Ok _ _ _ _ Hds) in H1
      as (name & a & Hname & Ha & Hm & Hs & He & Hta & Hlen & Hi).
    apply IH in H as (Hm' & Hs' & He' & Hta' & Hlen' & Hi').
    split; [|split; [|split; [|split; [|split]]]].
    + intros c. rewrite Hm'. split.
      * intros [Hin|(j & u & b & Hj & Hb & Hc)].
        -- apply Hm in Hin as [Hin|Hin]; [by left | right].
           exists 0%nat, t, a. by rewrite Nat.add_0_r.
        -- right. exists (S j), u, b. by rewrite Nat.add_succ_r.
      * intros [Hin|(j & u & b & Hj & Hb & Hc)].
        -- left. apply Hm. by left.
        -- destruct j as [|j]; simpl in Hj.
           ++ injection Hj as <-. left. apply Hm. right.
              rewrite Nat.add_0_r in Hc. congruence.
           ++ right. exists j, u, b. by rewrite Nat.add_succ_r in Hc.
    + intros name'. rewrite Hs'. simpl.
      destruct (holder name' ts) as [j|]; [by rewrite Nat.add_succ_r|].
      rewrite Hs, Hname, lookup_insert.
      destruct (decide (name = name')); simpl; [by rewrite Nat.add_0_r | done].
    + intros name'. rewrite He'. simpl.
      destruct (holder name' ts) as [j|]; [by rewrite Nat.add_succ_r|].
      rewrite He, Hname, lookup_insert.
      destruct (decide (name = name')); simpl; [by rewrite Nat.add_0_r | done].
    + intros name'. rewrite Hta'. simpl.
      destruct (holder name' ts) as [j|]; [by rewrite Nat.add_succ_r|].
      rewrite Hta, Hname, lookup_insert.
      destruct (decide (name = name')); simpl; [by rewrite Nat.add_0_r | done].
    + by rewrite Hlen', Hlen.
    + intros k row d Hrow Hk Hd.
      rewrite (Hi' k (row ++ [interval_of i k d]) d); [|
        by rewrite (Hi k row Hrow), decide_True, Hd | done | done].
      simpl. by rewrite <- app_assoc.
Qed.

End train_loop.

(** ** Which train holds a name *)

Lemma holder_Some (name : string) (ts : list train) (j : nat) :
  holder name ts = Some j →
  ∃ t, ts !! j = Some t ∧ train_name t = Ok name.
Proof.
  revert j. induction ts as [|t ts IH]; intros j H; simpl in H; [done|].
  destruct (holder name ts) as [j'|].
  - injection H as <-. simpl. by apply IH.
  - destruct (train_name t) as [n|] eqn:Hn; [|done].
    case_decide; [|done]. injection H as <-. subst n. by exists t.
Qed.

Lemma holder_ge (name : string) (ts : list train) (k : nat) (t : train) :
  ts !! k = Some t → train_name t = Ok name →
  ∃ j, holder name ts = Some j ∧ (k ≤ j)%nat.
Proof.
  revert k. induction ts as [|u ts IH]; intros k Hk Hn; [done|].
  simpl. destruct k as [|k]; simpl in Hk.
  - injection Hk as ->. destruct (holder name ts) as [j|].
    + exists (S j). split; [done | lia].
    + rewrite Hn. rewrite decide_True by done. by exists 0%nat.
  - destruct (IH k Hk Hn) as (j & -> & Hj). exists (S j). split; [done | lia].
Qed.

Lemma holder_distinct (name : string) (ts : list train) (k : nat) (t : train) :
  distinct_names ts → ts !! k = Some t → train_name t = Ok name →
  holder name ts = Some k.
Proof.
  intros Hdist Hk Hn.
  destruct (holder_ge _ _ _ _ Hk Hn) as (j & Hj & _).
  destruct (holder_Some _ _ _ Hj) as (u & Hu & Hnu).
  by rewrite (Hdist k j t u name).
Qed.

(** ** The model the script builds *)

Lemma map_result_index_seq {A} (l l' : list A) :
  map_result (index l) (seq 0 (length l)) = Ok l' → l' = l.
Proof.
  intros H. pose proof (map_result_length _ _ _ H) as Hlen.
  rewrite length_seq in Hlen.
  apply list_eq. intros k.
  destruct (l !! k) as [x|] eqn:Hx.
  - assert (Hk : (k < length l)%nat) by by eapply lookup_lt_Some.
    destruct (map_result_lookup _ _ _ k k H) as (y & Hy & Hi).
    { by apply lookup_seq_lt. }
    apply of_option_Ok in Hi. congruence.
  - apply lookup_ge_None in Hx. apply lookup_ge_None. lia.
Qed.

Lemma build_Ok (hz : Z) (trs : list track) (ts : list train) (ds : list Z)
    (st : builder) :
  Forall (loaded ds) ts → length ds = length trs →
  build trs ts hz = Ok st →
  ∃ ends, built hz trs ts ds st ends.
Proof.
  intros Hall Hlen. unfold build. intros H.
  apply bind_Ok in H as (st0 & H0 & H).
  apply bind_Ok in H as (per_track & Hpt & H).
  apply bind_Ok in H as (ends & Hends & H).
  apply bind_Ok in H as (weighted & Hw & [= <-]).
  apply (train_loop_Ok hz trs ds _ _ _ _ Hall) in H0
    as (Hm & Hs & He & Hta & Hlen' & Hi).
  simpl in Hs, He, Hta, Hlen', Hi, Hm.
  rewrite length_replicate in Hlen'. rewrite <- Hlen' in Hpt.
  apply map_result_index_seq in Hpt. subst per_track.
  assert (Hend : ∀ t e, end_var_of st0 t = Ok e →
            ∃ name j, train_name t = Ok name
                      ∧ holder name ts = Some j ∧ e = VEnd j).
  { intros t e Hte. unfold end_var_of in Hte.
    apply bind_Ok in Hte as (name & Hname & Hte%of_option_Ok).
    rewrite He in Hte. exists name.
    destruct (holder name ts) as [j|]; [|by rewrite lookup_empty in Hte].
    exists j. by injection Hte as <-. }
  exists ends. split; simpl.
  - intros c. rewrite !elem_of_app, Hm, elem_of_nil, list_elem_of_fmap.
    rewrite !elem_of_cons, elem_of_nil. split.
    + intros [ [ [] | Hin] | [(row & -> & Hrow) | [-> | [-> | [] ] ] ] ]; [by left| |tauto|tauto].
      right. left. apply list_elem_of_lookup in Hrow as (k & Hk).
      assert (Hk' : (k < length trs)%nat).
      { apply lookup_lt_Some in Hk. lia. }
      destruct (lookup_lt_is_Some_2 ds k) as (d & Hd); [lia|].
      exists k, d. split; [done|]. split; [done|].
      rewrite (Hi k [] d) in Hk; [| by apply lookup_replicate_2 | done | done].
      by injection Hk as <-.
    + intros [Hin | [(k & d & Hk & Hd & ->) | [-> | ->] ] ]; [by left; right| |tauto|tauto].
      right. left. eexists. split; [done|].
      apply list_elem_of_lookup. exists k.
      by rewrite (Hi k [] d); [| apply lookup_replicate_2 | |].
  - apply map_result_Ok in Hends.
    eapply Forall2_impl; [exact Hends|]. intros t e Hte. by apply Hend.
  - apply map_result_Ok in Hw.
    eapply Forall2_impl; [exact Hw|]. intros t we Hwe.
    unfold weighted_end, weight in Hwe.
    apply bind_Ok in Hwe as (w & Hw' & Hwe).
    apply bind_Ok in Hw' as (p & Hp & [= <-]).
    apply bind_Ok in Hwe as (e & He' & [= <-]).
    destruct (Hend _ _ He') as (name & j & Hn & Hj & ->).
    by exists p, name, j.
  - intros name. rewrite Hs. by destruct (holder name ts).
  - intros name. rewrite He. by destruct (holder name ts).
  - intros name. rewrite Hta. by destruct (holder name ts).
Qed.

(** ** What a solution gives *)

Lemma satisfies_holds (v : valuation) (m : cp_model) :
  satisfies v m = true ↔ ∀ c, c ∈ constraints m → holds v c = true.
Proof.
  unfold satisfies. rewrite forallb_forall.
  split; intros H c Hc; apply H; by apply list_elem_of_In.
Qed.

Lemma tracks_chosen_first (v : valuation) (bs : list var) (k : nat) :
  (∀ b, b ∈ bs → 0 <= v b <= 1) → sum_of v bs = 1 →
  ∃ c b, tracks_chosen v k bs !! 0%nat = Some (k + c)%nat
         ∧ bs !! c = Some b ∧ v b = 1.
Proof.
  revert k. induction bs as [|b bs IH]; intros k Hdom Hsum; simpl in *.
  - discriminate.
  - destruct (v b =? 1) eqn:Hb.
    + exists 0%nat, b. rewrite Nat.add_0_r. by apply Z.eqb_eq in Hb.
    + apply Z.eqb_neq in Hb.
      assert (Hb0 : 0 <= v b <= 1) by (apply Hdom; left).
      destruct (IH (S k)) as (c & b' & Hc & Hb' & Hv).
      * intros x Hx. apply Hdom. by right.
      * lia.
      * exists (S c), b'. by rewrite Nat.add_succ_r.
Qed.

Lemma max_of_Ok (l : list Z) (m : Z) :
  max_of l = Ok m → m ∈ l ∧ ∀ x, x ∈ l → x <= m.
Proof.
  destruct l as [|x l]; simpl; [done|]. intros [= <-].
  revert x. induction l as [|y l IH]; intros x; simpl.
  - split; [by left|]. intros z Hz. apply list_elem_of_singleton in Hz. lia.
  - destruct (IH (Z.max x y)) as (Hin & Hle). split.
    + apply elem_of_cons in Hin as [Hin|Hin]; [|by do 2 right].
      rewrite Hin. destruct (Z.max_spec x y) as [[_ ->]|[_ ->]];
        [right; left | left]; done.
    + intros z Hz. apply elem_of_cons in Hz as [->|Hz].
      * specialize (Hle (Z.max x y) ltac:(by left)). lia.
      * apply elem_of_cons in Hz as [->|Hz].
        -- specialize (Hle (Z.max x y) ltac:(by left)). lia.
        -- apply Hle. by right.
Qed.

Lemma prepare_Ok (inp : input) (ts : list train) (hz : Z) (st : builder) :
  prepare inp = Ok (ts, hz, st) →
  ∃ ds ends latest longest, prepared inp ts hz st ds ends latest longest.
Proof.
  unfold prepare. intros H.
  apply bind_Ok in H as (ts' & Hload & H).
  apply bind_Ok in H as (hz' & Hhz & H).
  apply bind_Ok in H as (st' & Hst & [= -> -> ->]).
  unfold horizon in Hhz.
  apply bind_Ok in Hhz as (latest & Hlatest & Hhz).
  apply bind_Ok in Hhz as (longest & Hlongest & [= <-]).
  destruct (load_loaded _ _ _ Hload) as [->|(ds & Hds & Hall)].
  { unfold latest_arrival in Hlatest. simpl in Hlatest. discriminate. }
  pose proof (track_durations_length _ _ Hds) as Hlen.
  destruct (build_Ok _ _ _ _ _ Hall Hlen Hst) as (ends & Hbuilt).
  by exists ds, ends, latest, longest.
Qed.

Section solution.
Context (inp : input) (ts : list train) (hz : Z) (st : builder)
  (ds : list Z) (ends : list var) (latest longest : Z) (v : valuation).
Hypothesis Hprep : prepared inp ts hz st ds ends latest longest.
Hypothesis Hsat : satisfies v (cp_model_of st) = true.

Lemma solution_holds (j : nat) (t : train) (a : Z) (c : constraint) :
  ts !! j = Some t → arrival_min t = Ok a →
  train_constraint hz (length (tracks inp)) j a ds c → holds v c = true.
Proof.
  intros Hj Ha Hc. apply (proj1 (satisfies_holds _ _) Hsat). simpl.
  apply (built_model _ _ _ _ _ _ (prep_built _ _ _ _ _ _ _ _ Hprep)).
  left. by exists j, t, a.
Qed.

Lemma train_has_holder (i : nat) (t : train) :
  ts !! i = Some t →
  ∃ name j u a, train_name t = Ok name ∧ holder name ts = Some j
                ∧ ts !! j = Some u ∧ train_name u = Ok name
                ∧ arrival_min u = Ok a ∧ (i ≤ j)%nat.
Proof.
  intros Hi.
  pose proof (built_ends _ _ _ _ _ _ (prep_built _ _ _ _ _ _ _ _ Hprep)) as He.
  destruct (Forall2_lookup_l _ _ _ _ _ He Hi) as (e & _ & name & j0 & Hn & _ & _).
  destruct (holder_ge _ _ _ _ Hi Hn) as (j & Hj & Hle).
  destruct (holder_Some _ _ _ Hj) as (u & Hu & Hnu).
  pose proof (prep_loaded _ _ _ _ _ _ _ _ Hprep) as Hall.
  rewrite Forall_lookup in Hall. destruct (Hall _ _ Hu) as (_ & a & Ha).
  by exists name, j, u, a.
Qed.

(** The values the extraction reads for a train are those of the train
    that holds its name; they satisfy the constraints of that train. *)
Lemma solved_values_Ok (i : nat) (t : train) :
  ts !! i = Some t →
  ∃ name j u a c d,
    train_name t = Ok name ∧ holder name ts = Some j
    ∧ ts !! j = Some u ∧ arrival_min u = Ok a ∧ (i ≤ j)%nat
    ∧ solved_values st v t = Ok (v (VStart j), v (VEnd j), c)
    ∧ (c < length (tracks inp))%nat ∧ v (VOnTrack j c) = 1
    ∧ ds !! c = Some d ∧ 0 <= d
    ∧ v (VEnd j) = v (VStart j) + d
    ∧ a <= v (VStart j)
    ∧ 0 <= v (VStart j) <= hz ∧ 0 <= v (VEnd j) <= hz.
Proof.
  intros Hi.
  destruct (train_has_holder _ _ Hi) as (name & j & u & a & Hn & Hj & Hu & Hnu & Ha & Hle).
  pose proof (prep_built _ _ _ _ _ _ _ _ Hprep) as Hb.
  set (n := length (tracks inp)).
  assert (Hdom : ∀ b, b ∈ bools_of j n → 0 <= v b <= 1).
  { intros b Hb'. unfold bools_of in Hb'.
    apply list_elem_of_fmap in Hb' as (k & -> & Hk%elem_of_seq).
    destruct (lookup_lt_is_Some_2 ds k) as (d & Hd).
    { rewrite (prep_length _ _ _ _ _ _ _ _ Hprep). fold n. lia. }
    assert (H : holds v (CDomain (VOnTrack j k) 0 1) = true).
    { apply (solution_holds j u a); [done..|].
      do 3 right. left. exists k, d. split; [lia|]. split; [done|]. by left. }
    simpl in H. lia. }
  assert (Hsum : sum_of v (bools_of j n) = 1).
  { assert (H : holds v (CSumEq (bools_of j n) 1) = true).
    { apply (solution_holds j u a); [done..|]. do 4 right. by left. }
    simpl in H. lia. }
  destruct (tracks_chosen_first v _ 0 Hdom Hsum) as (c & b & Hc & Hbc & Hvb).
  unfold bools_of in Hbc. rewrite list_lookup_fmap in Hbc.
  destruct (seq 0 n !! c) as [c'|] eqn:Hc'; [|done].
  apply lookup_seq in Hc' as [-> Hcn]. simpl in Hbc. injection Hbc as <-.
  destruct (lookup_lt_is_Some_2 ds c) as (d & Hd).
  { rewrite (prep_length _ _ _ _ _ _ _ _ Hprep). by fold n. }
  assert (Hiv : holds v (CInterval (interval_of j c d)) = true).
  { apply (solution_holds j u a); [done..|].
    do 3 right. left. exists c, d. split; [done|]. split; [done|].
    right. by left. }
  assert (Hge : holds v (CGe (VStart j) a) = true).
  { apply (solution_holds j u a); [done..|]. do 2 right. by left. }
  assert (Hds : holds v (CDomain (VStart j) 0 hz) = true).
  { apply (solution_holds j u a); [done..|]. by left. }
  assert (Hde : holds v (CDomain (VEnd j) 0 hz) = true).
  { apply (solution_holds j u a); [done..|]. right. by left. }
  simpl in Hiv, Hge, Hds, Hde. unfold lit in Hiv. simpl in Hiv.
  rewrite Hvb in Hiv. simpl in Hiv.
  exists name, j, u, a, c, d. repeat split; try done; try lia.
  unfold solved_values. rewrite Hn. simpl.
  rewrite (built_start_vars _ _ _ _ _ _ Hb), (built_end_vars _ _ _ _ _ _ Hb),
    (built_track_assignments _ _ _ _ _ _ Hb), Hj. simpl.
  fold n. unfold index. by rewrite Hc.
Qed.

End solution.

(** ** Published schedules *)

Lemma checked_solver_sound (v : valuation) : sound (checked_solver v).
Proof.
  intros m. unfold checked_solver.
  destruct (satisfies v m) eqn:Hv; repeat split; try done.
  all: by intros [|].
Qed.

Lemma main_published (inp : input) (solve : solver) (out : output_data) :
  output_json (main inp solve) = Some out →
  ∃ ts hz st status v,
    prepare inp = Ok (ts, hz, st)
    ∧ solve (cp_model_of st) = (status, v)
    ∧ is_solution status = true
    ∧ extract st v ts = Ok out.
Proof.
  unfold main. destruct (prepare inp) as [[[ts hz] st]|e]; [|done].
  destruct (solve (cp_model_of st)) as [status v] eqn:Hs.
  destruct (is_solution status) eqn:Hst; [|done].
  destruct (extract st v ts) as [out'|e] eqn:Hout; [|done].
  unfold publish. destruct (dump out') as [[]|e]; [|done].
  intros [= <-]. by exists ts, hz, st, status, v.
Qed.

Lemma enrich_Ok (t o : train) (s e : Z) (c : nat) :
  enrich t s e c = Ok o →
  ∃ entry exit,
    Codec.minutes_to_clock s = Ok entry ∧ Codec.minutes_to_clock e = Ok exit
    ∧ o = <["assigned_track" := JInt (Z.of_nat c + 1)]>
            (<["section_exit_time" := JStr exit]>
               (<["section_entry_time" := JStr entry]> t)).
Proof.
  unfold enrich. intros H.
  apply bind_Ok in H as (entry & Hentry & H).
  apply bind_Ok in H as (exit & Hexit & [= <-]).
  by exists entry, exit.
Qed.

Lemma extract_lookup (st : builder) (v : valuation) (ts : list train)
    (out : output_data) (i : nat) (o : train) :
  extract st v ts = Ok out → out_trains out !! i = Some o →
  ∃ t s e c,
    ts !! i = Some t ∧ solved_values st v t = Ok (s, e, c)
    ∧ enrich t s e c = Ok o.
Proof.
  unfold extract. intros H Hi.
  apply bind_Ok in H as (enriched & Hen & H).
  apply bind_Ok in H as (clearance & _ & [= <-]). simpl in Hi.
  apply map_result_Ok in Hen.
  destruct (Forall2_lookup_r _ _ _ _ _ Hen Hi) as (t & Ht & Hex).
  unfold extract_train in Hex.
  apply bind_Ok in Hex as ([[s e] c] & Hsv & Henr).
  by exists t, s, e, c.
Qed.

Lemma extract_length (st : builder) (v : valuation) (ts : list train)
    (out : output_data) :
  extract st v ts = Ok out → length (out_trains out) = length ts.
Proof.
  unfold extract. intros H.
  apply bind_Ok in H as (enriched & Hen & H).
  apply bind_Ok in H as (clearance & _ & [= <-]). simpl.
  by eapply map_result_length.
Qed.

Lemma map_result_total {A B} (f : A → result B) (l : list A) :
  (∀ x, x ∈ l → ∃ y, f x = Ok y) → ∃ l', map_result f l = Ok l'.
Proof.
  induction l as [|x l IH]; intros H; simpl; [by eexists|].
  destruct (H x) as (y & ->); [by left|].
  destruct IH as (l' & ->); [intros z Hz; apply H; by right|].
  simpl. by eexists.
Qed.

(** X13.  The extraction of a solution never raises.  Whenever the solver
    answers with values that satisfy the model and the horizon is a minute
    [minutes_to_clock] converts, lines 113 to 128 find the variables of
    every train and a chosen track, convert every minute and yield one
    record per train; the run goes on to the write of [output.json] and
    ends as the write ends. *)
Lemma solution_is_extracted (inp : input) (solve : solver)
    (ts : list train) (hz : Z) (st : builder) (status : status)
    (v : valuation) :
  prepare inp = Ok (ts, hz, st) →
  solve (cp_model_of st) = (status, v) →
  is_solution status = true →
  satisfies v (cp_model_of st) = true →
  hz <= Codec.max_minutes →
  ∃ out, extract st v ts = Ok out
         ∧ length (out_trains out) = length (trains inp)
         ∧ main inp solve = publish out.
Proof.
  intros Hp Hs Hst Hsat Hhz.
  destruct (prepare_Ok _ _ _ _ Hp) as (ds & ends & latest & longest & Hprep).
  assert (Hclock : ∀ m, 0 <= m <= hz → ∃ label, Codec.minutes_to_clock m = Ok label).
  { intros m Hm. eexists. apply minutes_to_clock_in_range.
    assert (Codec.min_minutes < 0) by reflexivity. lia. }
  destruct (map_result_total (extract_train st v) ts) as (enriched & Hen).
  { intros t Ht. apply list_elem_of_lookup in Ht as (i & Hi).
    destruct (solved_values_Ok _ _ _ _ _ _ _ _ _ Hprep Hsat _ _ Hi)
      as (name & j & u & a & c & d & _ & _ & _ & _ & _ & Hsv & _ & _ & _ & _ & _ & _ & Hstart & Hend).
    unfold extract_train. rewrite Hsv. simpl. unfold enrich.
    destruct (Hclock _ Hstart) as (entry & ->).
    destruct (Hclock _ Hend) as (exit & ->). simpl. by eexists. }
  assert (Hlast : holds v (CDomain VLastExit 0 hz) = true).
  { apply (proj1 (satisfies_holds _ _) Hsat). simpl.
    apply (built_model _ _ _ _ _ _ (prep_built _ _ _ _ _ _ _ _ Hprep)). tauto. }
  simpl in Hlast.
  destruct (Hclock (v VLastExit)) as (clearance & Hcl); [lia|].
  assert (Hex : extract st v ts
                = Ok {| out_trains := enriched;
                        last_section_clearance_time := clearance |}).
  { unfold extract. rewrite Hen. simpl. by rewrite Hcl. }
  eexists. split; [exact Hex|]. split.
  - rewrite (extract_length _ _ _ _ Hex).
    unfold prepare in Hp. apply bind_Ok in Hp as (ts' & Hload & Hp).
    apply bind_Ok in Hp as (hz' & _ & Hp).
    apply bind_Ok in Hp as (st' & _ & [= -> _ _]).
    by apply map_result_length in Hload.
  - unfold main. by rewrite Hp, Hs, Hst, Hex.
Qed.

(** C3.  In every schedule a run publishes with a sound solver, the exit
    minute of each train is its entry minute plus the duration of the
    track it is assigned to, and these are the values the record shows. *)
Theorem exit_is_entry_plus_duration (inp : input) (solve : solver)
    (out : output_data) (i : nat) (o : train) :
  sound solve →
  output_json (main inp solve) = Some out →
  out_trains out !! i = Some o →
  ∃ s e c tr d entry exit,
    assignment inp solve i = Some (s, e, c)
    ∧ Codec.minutes_to_clock s = Ok entry
    ∧ o !! "section_entry_time"%string = Some (JStr entry)
    ∧ Codec.minutes_to_clock e = Ok exit
    ∧ o !! "section_exit_time"%string = Some (JStr exit)
    ∧ o !! "assigned_track"%string = Some (JInt (Z.of_nat c + 1))
    ∧ tracks inp !! c = Some tr ∧ Load.time_min tr = Ok d
    ∧ e = s + d.
Proof.
  intros Hsound Hout Hi.
  destruct (main_published _ _ _ Hout) as (ts & hz & st & status & v & Hp & Hs & Hst & Hex).
  destruct (extract_lookup _ _ _ _ _ _ Hex Hi) as (t & s & e & c & Ht & Hsv & Hen).
  destruct (prepare_Ok _ _ _ _ Hp) as (ds & ends & latest & longest & Hprep).
  assert (Hsat : satisfies v (cp_model_of st) = true).
  { specialize (Hsound (cp_model_of st)). rewrite Hs in Hsound.
    destruct Hsound as (Hsat & _). apply Hsat.
    destruct status; simpl in Hst; try done; auto. }
  destruct (solved_values_Ok _ _ _ _ _ _ _ _ _ Hprep Hsat _ _ Ht)
    as (name & j & u & a & c' & d & _ & _ & _ & _ & _ & Hsv' & Hc & _ & Hd & _ & Heq & _).
  rewrite Hsv in Hsv'. injection Hsv' as -> -> ->.
  destruct (track_durations_lookup _ _ _ _ (prep_durations _ _ _ _ _ _ _ _ Hprep) Hd)
    as (tr & Htr & Htm).
  destruct (enrich_Ok _ _ _ _ _ Hen) as (entry & exit & Hentry & Hexit & ->).
  exists (v (VStart j)), (v (VEnd j)), c', tr, d, entry, exit.
  repeat split; try done.
  - unfold assignment. rewrite Hp, Hs, Hst, Ht. simpl. by rewrite Hsv.
  - do 2 (rewrite lookup_insert_ne by done). by rewrite lookup_insert_eq.
  - rewrite lookup_insert_ne by done. by rewrite lookup_insert_eq.
  - by rewrite lookup_insert_eq.
Qed.

(** The maximum over the end candidates alone would leave slack: the
    candidate of a track that is not chosen is free.  It is the optional
    interval of the chosen track that ties the end to the start. *)
Example end_candidates_leave_slack :
  model_of two_tracks = Some (cp_model_of (stages two_tracks).2)
  ∧ forallb (λ c, is_interval c || holds slack_values c)
      (constraints (cp_model_of (stages two_tracks).2)) = true
  ∧ holds slack_values (CInterval (interval_of 0 0 20)) = false
  ∧ satisfies slack_values (cp_model_of (stages two_tracks).2) = false.
Proof. split; [reflexivity|]. by vm_compute. Qed.

Lemma exit_is_entry_plus_duration_witness :
  ∃ s e c tr d entry exit,
    assignment two_on_one (checked_solver two_on_one_values) 1 = Some (s, e, c)
    ∧ Codec.minutes_to_clock s = Ok entry
    ∧ record two_on_one_run 1 !! "section_entry_time"%string = Some (JStr entry)
    ∧ Codec.minutes_to_clock e = Ok exit
    ∧ record two_on_one_run 1 !! "section_exit_time"%string = Some (JStr exit)
    ∧ record two_on_one_run 1 !! "assigned_track"%string
      = Some (JInt (Z.of_nat c + 1))
    ∧ tracks two_on_one !! c = Some tr ∧ Load.time_min tr = Ok d
    ∧ e = s + d.
Proof.
  apply (exit_is_entry_plus_duration two_on_one
           (checked_solver two_on_one_values) (written two_on_one_run)).
  - apply checked_solver_sound.
  - reflexivity.
  - reflexivity.
Defined.

(** ** The frame of the extraction *)

Lemma dashboard_fields_not_written (key : string) :
  key ∈ dashboard_fields → key ∉ written_fields.
Proof.
  unfold dashboard_fields. intros H.
  repeat (apply elem_of_cons in H as [->|H]); [..|by apply elem_of_nil in H].
  all: apply (bool_decide_unpack _); by vm_compute.
Qed.

(** C9 (as amended).  Every record of a published schedule keeps each
    field of the input record the script does not write itself, that is
    every field but [durations], [arrival_min] and the three schedule
    fields, in particular every field the dashboard reads from the input;
    the extraction sets the three schedule fields on a copy of the loaded
    record and leaves every other field of it as it is. *)
Theorem input_fields_unchanged (inp : input) (solve : solver)
    (out : output_data) (i : nat) (o : train) :
  output_json (main inp solve) = Some out →
  out_trains out !! i = Some o →
  length (out_trains out) = length (trains inp)
  ∧ ∃ t t' ts hz st,
      trains inp !! i = Some t
      ∧ prepare inp = Ok (ts, hz, st) ∧ ts !! i = Some t'
      ∧ (∀ key, key ∉ written_fields → o !! key = t !! key)
      ∧ (∀ key, key ∈ dashboard_fields → o !! key = t !! key)
      ∧ (∀ key, key ∉ schedule_fields → o !! key = t' !! key)
      ∧ (∀ key, key ∈ schedule_fields → is_Some (o !! key)).
Proof.
  intros Hout Hi.
  destruct (main_published _ _ _ Hout) as (ts & hz & st & status & v & Hp & Hs & Hst & Hex).
  pose proof Hp as Hp'. unfold prepare in Hp'.
  apply bind_Ok in Hp' as (ts' & Hload & Hp').
  apply bind_Ok in Hp' as (hz' & _ & Hp').
  apply bind_Ok in Hp' as (st' & _ & [= -> -> ->]).
  split.
  { rewrite (extract_length _ _ _ _ Hex). by eapply map_result_length. }
  destruct (extract_lookup _ _ _ _ _ _ Hex Hi) as (t' & s & e & c & Ht' & _ & Hen).
  destruct (load_frame _ _ _ _ _ Hload Ht') as (t & Ht & Hkeys).
  destruct (enrich_Ok _ _ _ _ _ Hen) as (entry & exit & _ & _ & ->).
  assert (Hextract : ∀ key, key ∉ schedule_fields →
            <["assigned_track"%string := JInt (Z.of_nat c + 1)]>
              (<["section_exit_time"%string := JStr exit]>
                 (<["section_entry_time"%string := JStr entry]> t')) !! key
            = t' !! key).
  { intros key Hkey. unfold schedule_fields in Hkey.
    rewrite !not_elem_of_cons in Hkey. destruct Hkey as (? & ? & ? & _).
    by rewrite !lookup_insert_ne. }
  assert (Hwritten : ∀ key, key ∉ written_fields →
            <["assigned_track"%string := JInt (Z.of_nat c + 1)]>
              (<["section_exit_time"%string := JStr exit]>
                 (<["section_entry_time"%string := JStr entry]> t')) !! key
            = t !! key).
  { intros key Hkey. unfold written_fields in Hkey.
    apply not_elem_of_app in Hkey as [Hkey Hsched].
    rewrite !not_elem_of_cons in Hkey. destruct Hkey as (? & ? & _).
    rewrite (Hextract key Hsched). by apply Hkeys. }
  exists t, t', ts, hz, st. repeat split; try done.
  - intros key Hkey. by apply Hwritten, dashboard_fields_not_written.
  - intros key Hkey. unfold schedule_fields in Hkey.
    rewrite !elem_of_cons, elem_of_nil in Hkey.
    destruct Hkey as [-> | [-> | [-> | [] ] ] ].
    + do 2 (rewrite lookup_insert_ne by done). by rewrite lookup_insert_eq.
    + rewrite lookup_insert_ne by done. by rewrite lookup_insert_eq.
    + by rewrite lookup_insert_eq.
Qed.

Lemma input_fields_unchanged_witness :
  length (out_trains (written two_on_one_run)) = length (trains two_on_one)
  ∧ ∃ t t' ts hz st,
      trains two_on_one !! 0%nat = Some t
      ∧ prepare two_on_one = Ok (ts, hz, st) ∧ ts !! 0%nat = Some t'
      ∧ (∀ key, key ∉ written_fields → record two_on_one_run 0 !! key = t !! key)
      ∧ (∀ key, key ∈ dashboard_fields → record two_on_one_run 0 !! key = t !! key)
      ∧ (∀ key, key ∉ schedule_fields → record two_on_one_run 0 !! key = t' !! key)
      ∧ (∀ key, key ∈ schedule_fields → is_Some (record two_on_one_run 0 !! key)).
Proof.
  apply (input_fields_unchanged two_on_one (checked_solver two_on_one_values)).
  - reflexivity.
  - reflexivity.
Defined.

(** C9 fails as stated: an input field named [durations] is no schedule
    field, yet the loading loop stores the list of durations under that
    name and the published record carries the list, not the input value. *)
Lemma input_field_overwritten :
  ¬ (∀ (inp : input) (solve : solver) (out : output_data) (i : nat)
       (t o : train) (key : string),
       output_json (main inp solve) = Some out →
       trains inp !! i = Some t → out_trains out !! i = Some o →
       key ∉ schedule_fields → is_Some (t !! key) →
       o !! key = t !! key).
Proof.
  intros H.
  specialize (H tagged (checked_solver two_on_one_values)
                (written tagged_run) 0%nat
                (<["durations" := JStr "daily"]>
                   (sample_train 1 "Rajdhani" "08:00" 1))
                (record tagged_run 0) "durations"%string
                eq_refl eq_refl eq_refl).
  assert (Hkey : "durations"%string ∉ schedule_fields)
    by (apply (bool_decide_unpack _); by vm_compute).
  specialize (H Hkey ltac:(by eexists)).
  vm_compute in H. discriminate H.
Qed.

(** ** The weights of the objective *)

Lemma weight_Ok (t : train) (p : Z) :
  priority t = Ok p → weight t = Ok (10 - p).
Proof. unfold weight. by intros ->. Qed.

(** Up to priority 9 the weight is the clamped one. *)
Lemma weight_clamped (t : train) (p : Z) :
  priority t = Ok p → p <= 9 → weight t = Ok (Z.max 1 (10 - p)).
Proof. intros Hp Hle. rewrite (weight_Ok _ _ Hp). f_equal. lia. Qed.

(** C1 fails on the script: the weight is [10 - priority] without a
    clamp.  A train of priority 12 gets the weight -2 where the clamp
    gives 1, the objective of its model is [-2 * end], and of two
    solutions the one that holds the train back until the horizon has the
    smaller objective. *)
Theorem weight_not_clamped :
  weight (sample_train 7 "Goods" "08:00" 12) = Ok (-2)
  ∧ Z.max 1 (10 - 12) = 1
  ∧ ∃ m, model_of low_priority = Some m
         ∧ objective m = [(-2, VEnd 0)]
         ∧ satisfies at_once m = true
         ∧ satisfies held_back m = true
         ∧ objective_value held_back m < objective_value at_once m.
Proof.
  split; [reflexivity|]. split; [reflexivity|].
  eexists. split; [reflexivity|]. by vm_compute.
Qed.

(** On [low_priority] every optimal answer of a sound solver holds the
    train back for ten hours: it arrives at minute 480 and enters at 1080,
    to leave at the horizon. *)
Lemma low_priority_optimal_answer (solve : solver) :
  sound solve →
  (solve (cp_model_of (stages low_priority).2)).1 = OPTIMAL →
  release low_priority 0 = Some 480
  ∧ assignment low_priority solve 0 = Some (1080, 1100, 0%nat).
Proof.
  intros Hsound Hopt.
  set (ts := (stages low_priority).1.1).
  set (hz := (stages low_priority).1.2).
  set (st := (stages low_priority).2) in *.
  assert (Hp : prepare low_priority = Ok (ts, hz, st)) by reflexivity.
  destruct (solve (cp_model_of st)) as [status v] eqn:Hs.
  simpl in Hopt. subst status.
  pose proof (Hsound (cp_model_of st)) as H. rewrite Hs in H.
  destruct H as (Hsat & Hmin & _).
  specialize (Hsat (or_intror eq_refl)).
  specialize (Hmin eq_refl held_back eq_refl).
  assert (Hvals : v (VStart 0) = 1080 ∧ v (VEnd 0) = 1100).
  { unfold objective_value in Hmin.
    set (o := objective _) in Hmin. vm_compute in o. subst o.
    unfold satisfies in Hsat.
    set (l := constraints _) in Hsat. vm_compute in l. subst l.
    simpl in Hmin, Hsat. unfold lit in Hsat. simpl in Hsat.
    lia. }
  destruct Hvals as (Hstart & Hend).
  destruct (prepare_Ok _ _ _ _ Hp) as (ds & ends & latest & longest & Hprep).
  split; [reflexivity|].
  assert (Hi : ts !! 0%nat = Some (default ∅ (ts !! 0%nat))) by reflexivity.
  destruct (solved_values_Ok _ _ _ _ _ _ _ _ _ Hprep Hsat _ _ Hi)
    as (name & j & u & a & c & d & Hn & Hj & _ & _ & _ & Hsv & Hc & _).
  assert (name = "Goods"%string) as -> by (by injection Hn).
  assert (j = 0%nat) as -> by (by injection Hj).
  assert (c = 0%nat) as -> by (simpl in Hc; lia).
  unfold assignment. rewrite Hp, Hs. simpl. rewrite Hi. simpl.
  by rewrite Hsv, Hstart, Hend.
Qed.

(** ** Runs that end before the solver is called *)

Lemma main_crashed (inp : input) (solve : solver) (e : exn) :
  prepare inp = Raise e → main inp solve = crashed e.
Proof. unfold main. by intros ->. Qed.

(** X17.  Without tracks every run ends in an uncaught exception before
    the solver is called, whatever the trains are: nothing is printed and
    nothing is written. *)
Lemma no_tracks_crash (inp : input) (solve : solver) :
  tracks inp = [] → ∃ e, main inp solve = crashed e.
Proof.
  intros Htr.
  destruct (prepare inp) as [[[ts hz] st]|e] eqn:Hp;
    [|exists e; by apply main_crashed].
  destruct (prepare_Ok _ _ _ _ Hp) as (ds & ends & latest & longest & Hprep).
  destruct Hprep as [_ Hds Hall Hlen Hlatest Hlongest _ _].
  rewrite Htr in Hlen. destruct ds; [|done].
  destruct Hall as [|t ts [Hd _] _].
  - unfold latest_arrival in Hlatest. simpl in Hlatest. discriminate.
  - unfold longest_run in Hlongest. simpl in Hlongest.
    rewrite Hd in Hlongest. simpl in Hlongest. discriminate.
Qed.

(** C6 fails on the script: with no track, [max] of the empty list of
    durations raises [ValueError] while the horizon is computed.  The run
    ends with the uncaught exception, prints nothing and writes nothing;
    the solver is never asked, so no status is reported. *)
Theorem no_track_run_raises :
  ∀ solve : solver,
    main no_track solve = crashed ValueError
    ∧ stdout (main no_track solve) ≠ "No feasible solution found."%string
    ∧ output_json (main no_track solve) = None.
Proof.
  intros solve.
  assert (H : main no_track solve = crashed ValueError).
  { apply main_crashed. reflexivity. }
  rewrite H. by repeat split.
Qed.

Lemma zero_speed_durations (trs : list track) :
  (∃ tr, tr ∈ trs ∧ PrimFloat.eqb (speed_kmph tr) 0 = true) →
  ∃ e, Load.track_durations trs = Raise e.
Proof.
  intros (tr & Hin & Hzero). unfold Load.track_durations.
  induction Hin as [tr trs|tr tr' trs _ IH]; simpl.
  - unfold Load.time_min, Load.truediv. rewrite Hzero. simpl. eauto.
  - destruct (Load.time_min tr') as [d|e]; simpl; [|eauto].
    destruct (IH Hzero) as (e & ->). simpl. eauto.
Qed.

(** C7 (as amended).  When some track has speed zero and there is at least
    one train, the loading loop raises, so the run ends before the model
    is created and writes nothing. *)
Theorem zero_speed_fails (inp : input) :
  trains inp ≠ [] →
  (∃ tr, tr ∈ tracks inp ∧ PrimFloat.eqb (speed_kmph tr) 0 = true) →
  ∃ e, Load.load (tracks inp) (trains inp) = Raise e
       ∧ ∀ solve, main inp solve = crashed e
                  ∧ output_json (main inp solve) = None.
Proof.
  intros Hts Hzero.
  destruct (zero_speed_durations _ Hzero) as (e & He).
  destruct (trains inp) as [|t ts] eqn:Htrains; [done|].
  exists e.
  assert (Hload : Load.load (tracks inp) (t :: ts) = Raise e).
  { unfold Load.load. simpl. unfold Load.load_train. by rewrite He. }
  split; [done|]. intros solve.
  assert (H : main inp solve = crashed e).
  { apply main_crashed. unfold prepare. by rewrite Htrains, Hload. }
  by rewrite H.
Qed.

Lemma zero_speed_fails_witness :
  ∃ e, Load.load (tracks blocked_track) (trains blocked_track) = Raise e
       ∧ ∀ solve, main blocked_track solve = crashed e
                  ∧ output_json (main blocked_track solve) = None.
Proof.
  apply (zero_speed_fails blocked_track).
  - discriminate.
  - exists {| length_km := 30; speed_kmph := 0 |}. split; [|reflexivity].
    right. left.
Defined.

(** C7 fails as stated: a negative speed is not rejected.  The loading
    loop turns it into the duration -30, the model is built, and with the
    train on the other track a sound solver's answer is published. *)
Lemma negative_speed_accepted :
  (∃ tr, tr ∈ tracks backwards_track ∧ PrimFloat.leb (speed_kmph tr) 0 = true)
  ∧ is_ok (prepare backwards_track) = true
  ∧ sound (checked_solver on_second_track)
  ∧ is_Some (output_json (main backwards_track (checked_solver on_second_track))).
Proof.
  split; [|split; [|split]].
  - exists {| length_km := 30; speed_kmph := (-60) |}. split; [left | reflexivity].
  - reflexivity.
  - apply checked_solver_sound.
  - eexists. reflexivity.
Qed.

(** ** Runs without a solution *)

(** C8 (as amended).  Whether the search ends with INFEASIBLE or with
    UNKNOWN (the time limit, no solution), the run is the same: it prints
    the one message, writes nothing and ends with the exit status 0. *)
Theorem no_solution_reported_alike (inp : input) (infeasible timeout : solver)
    (ts : list train) (hz : Z) (st : builder) :
  prepare inp = Ok (ts, hz, st) →
  (infeasible (cp_model_of st)).1 = INFEASIBLE →
  (timeout (cp_model_of st)).1 = UNKNOWN →
  main inp infeasible = main inp timeout
  ∧ stdout (main inp infeasible) = "No feasible solution found."%string
  ∧ exit_status (main inp infeasible) = 0
  ∧ output_json (main inp infeasible) = None.
Proof.
  intros Hp Hi Ht. unfold main. rewrite Hp.
  destruct (infeasible (cp_model_of st)) as [s1 v1].
  destruct (timeout (cp_model_of st)) as [s2 v2].
  simpl in Hi, Ht. by subst.
Qed.

Lemma no_solution_reported_alike_witness :
  main two_long_runs (gives_up INFEASIBLE) = main two_long_runs (gives_up UNKNOWN)
  ∧ stdout (main two_long_runs (gives_up INFEASIBLE))
    = "No feasible solution found."%string
  ∧ exit_status (main two_long_runs (gives_up INFEASIBLE)) = 0
  ∧ output_json (main two_long_runs (gives_up INFEASIBLE)) = None.
Proof.
  apply (no_solution_reported_alike two_long_runs _ _
           (stages two_long_runs).1.1 (stages two_long_runs).1.2
           (stages two_long_runs).2); reflexivity.
Defined.

(** C8 fails as stated: on the same input an INFEASIBLE search and a
    search that timed out leave the same outcome, exit status included. *)
Lemma no_result_code :
  ¬ (main two_long_runs (gives_up INFEASIBLE) ≠ main two_long_runs (gives_up UNKNOWN)
     ∨ exit_status (main two_long_runs (gives_up INFEASIBLE))
       ≠ exit_status (main two_long_runs (gives_up UNKNOWN))).
Proof. intros [H|H]; by apply H. Qed.

(** ** Trains that share a name *)

Lemma assignment_Some (inp : input) (solve : solver) (i : nat)
    (s e : Z) (c : nat) :
  assignment inp solve i = Some (s, e, c) →
  ∃ ts hz st status v t,
    prepare inp = Ok (ts, hz, st)
    ∧ solve (cp_model_of st) = (status, v)
    ∧ is_solution status = true
    ∧ ts !! i = Some t
    ∧ solved_values st v t = Ok (s, e, c).
Proof.
  unfold assignment.
  destruct (prepare inp) as [[[ts hz] st]|] eqn:Hp; [|done].
  destruct (solve (cp_model_of st)) as [status v] eqn:Hs.
  destruct (is_solution status) eqn:Hst; [|done].
  destruct (ts !! i) as [t|] eqn:Ht; [|done]. simpl.
  destruct (solved_values st v t) as [x|] eqn:Hsv; [|done].
  intros [= ->]. by exists ts, hz, st, status, v, t.
Qed.

Lemma sound_satisfies (solve : solver) (m : cp_model) (status : status)
    (v : valuation) :
  sound solve → solve m = (status, v) → is_solution status = true →
  satisfies v m = true.
Proof.
  intros Hsound Hs Hst. specialize (Hsound m). rewrite Hs in Hsound.
  destruct Hsound as (Hsat & _). apply Hsat.
  destruct status; simpl in Hst; try done; auto.
Qed.

Lemma load_train_name (trs : list track) (ts ts' : list train) (i : nat)
    (t t' : train) :
  Load.load trs ts = Ok ts' → ts !! i = Some t → ts' !! i = Some t' →
  train_name t' = train_name t.
Proof.
  intros Hload Ht Ht'.
  destruct (load_frame _ _ _ _ _ Hload Ht') as (u & Hu & Hkeys).
  rewrite Ht in Hu. injection Hu as <-.
  unfold train_name, getitem. by rewrite Hkeys.
Qed.

Lemma load_distinct_names (trs : list track) (ts ts' : list train) :
  Load.load trs ts = Ok ts' → distinct_names ts → distinct_names ts'.
Proof.
  intros Hload Hd i j t' u' name Hi Hj Hn Hm.
  destruct (load_frame _ _ _ _ _ Hload Hi) as (t & Ht & _).
  destruct (load_frame _ _ _ _ _ Hload Hj) as (u & Hu & _).
  apply (Hd i j t u name); try done.
  - by rewrite <- (load_train_name _ _ _ _ _ _ Hload Ht Hi).
  - by rewrite <- (load_train_name _ _ _ _ _ _ Hload Hu Hj).
Qed.

Lemma no_overlap_lookup (v : valuation) (ivs : list interval)
    (p q : nat) (a b : interval) :
  no_overlap v ivs = true → (p < q)%nat →
  ivs !! p = Some a → ivs !! q = Some b → apart v a b = true.
Proof.
  revert p q. induction ivs as [|x ivs IH]; intros p q H Hpq Hp Hq; [done|].
  simpl in H. apply andb_true_iff in H as [Hx Hrest].
  destruct q as [|q]; [lia|]. simpl in Hq.
  destruct p as [|p]; simpl in Hp.
  - injection Hp as ->. rewrite forallb_forall in Hx. apply Hx.
    apply list_elem_of_In, list_elem_of_lookup. eauto.
  - apply (IH p q); [done | lia | done | done].
Qed.

Lemma apart_present (v : valuation) (a b : interval) :
  apart v a b = true → v (iv_present a) = 1 → v (iv_present b) = 1 →
  v (iv_end a) <= v (iv_start b) ∨ v (iv_end b) <= v (iv_start a).
Proof.
  unfold apart, lit. intros H Ha Hb. rewrite Ha, Hb in H. simpl in H.
  apply orb_true_iff in H as [H|H]; [left | right]; lia.
Qed.

(** X11.  When no two trains have the same name, every train is read back
    from its own variables: with a sound solver, the entry minute behind
    each published record is at least the release of that train. *)
Lemma distinct_names_entry_after_release (inp : input) (solve : solver)
    (i : nat) (s e : Z) (c : nat) :
  sound solve → distinct_names (trains inp) →
  assignment inp solve i = Some (s, e, c) →
  ∃ a, release inp i = Some a ∧ a <= s.
Proof.
  intros Hsound Hdist Ha.
  destruct (assignment_Some _ _ _ _ _ _ Ha)
    as (ts & hz & st & status & v & t & Hp & Hs & Hst & Ht & Hsv).
  destruct (prepare_Ok _ _ _ _ Hp) as (ds & ends & latest & longest & Hprep).
  pose proof (sound_satisfies _ _ _ _ Hsound Hs Hst) as Hsat.
  pose proof (load_distinct_names _ _ _ (prep_load _ _ _ _ _ _ _ _ Hprep) Hdist) as Hdist'.
  destruct (solved_values_Ok _ _ _ _ _ _ _ _ _ Hprep Hsat _ _ Ht)
    as (name & j & u & a & c' & d & Hn & Hj & Hu & Hau & _ & Hsv' & _ & _ & _ & _ & _ & Hge & _).
  rewrite (holder_distinct _ _ _ _ Hdist' Ht Hn) in Hj. injection Hj as <-.
  rewrite Ht in Hu. injection Hu as <-.
  rewrite Hsv in Hsv'. injection Hsv' as -> -> ->.
  exists a. split; [|done]. unfold release. rewrite Hp, Ht. simpl. by rewrite Hau.
Qed.

(** X12.  When no two trains have the same name, with a sound solver two
    different trains that are published on the same track do not overlap:
    one leaves before the other enters. *)
Lemma distinct_names_tracks_exclusive (inp : input) (solve : solver)
    (i1 i2 : nat) (s1 e1 s2 e2 : Z) (c : nat) :
  sound solve → distinct_names (trains inp) → i1 ≠ i2 →
  assignment inp solve i1 = Some (s1, e1, c) →
  assignment inp solve i2 = Some (s2, e2, c) →
  e1 <= s2 ∨ e2 <= s1.
Proof.
  intros Hsound Hdist.
  assert (Hlt : ∀ i1 i2 s1 e1 s2 e2,
            (i1 < i2)%nat →
            assignment inp solve i1 = Some (s1, e1, c) →
            assignment inp solve i2 = Some (s2, e2, c) →
            e1 <= s2 ∨ e2 <= s1).
  { clear i1 i2 s1 e1 s2 e2. intros i1 i2 s1 e1 s2 e2 Hlt Ha1 Ha2.
    destruct (assignment_Some _ _ _ _ _ _ Ha1)
      as (ts & hz & st & status & v & t1 & Hp & Hs & Hst & Ht1 & Hsv1).
    destruct (assignment_Some _ _ _ _ _ _ Ha2)
      as (ts' & hz' & st' & status' & v' & t2 & Hp' & Hs' & _ & Ht2 & Hsv2).
    rewrite Hp in Hp'. injection Hp' as <- <- <-.
    rewrite Hs in Hs'. injection Hs' as <- <-.
    destruct (prepare_Ok _ _ _ _ Hp) as (ds & ends & latest & longest & Hprep).
    pose proof (sound_satisfies _ _ _ _ Hsound Hs Hst) as Hsat.
    pose proof (load_distinct_names _ _ _ (prep_load _ _ _ _ _ _ _ _ Hprep) Hdist) as Hdist'.
    destruct (solved_values_Ok _ _ _ _ _ _ _ _ _ Hprep Hsat _ _ Ht1)
      as (n1 & j1 & u1 & a1 & c1 & d1 & Hn1 & Hj1 & _ & _ & _ & Hsv1' & Hc1 & Hb1 & Hd1 & _).
    destruct (solved_values_Ok _ _ _ _ _ _ _ _ _ Hprep Hsat _ _ Ht2)
      as (n2 & j2 & u2 & a2 & c2 & d2 & Hn2 & Hj2 & _ & _ & _ & Hsv2' & Hc2 & Hb2 & Hd2 & _).
    rewrite (holder_distinct _ _ _ _ Hdist' Ht1 Hn1) in Hj1. injection Hj1 as <-.
    rewrite (holder_distinct _ _ _ _ Hdist' Ht2 Hn2) in Hj2. injection Hj2 as <-.
    rewrite Hsv1 in Hsv1'. injection Hsv1' as -> -> <-.
    rewrite Hsv2 in Hsv2'. injection Hsv2' as -> -> <-.
    rewrite Hd1 in Hd2. injection Hd2 as <-.
    set (row := (λ j, interval_of j c d1) <$> seq 0 (length ts)).
    assert (Hrow : holds v (CNoOverlap row) = true).
    { apply (proj1 (satisfies_holds _ _) Hsat). simpl.
      apply (built_model _ _ _ _ _ _ (prep_built _ _ _ _ _ _ _ _ Hprep)).
      right. left. by exists c, d1. }
    simpl in Hrow.
    assert (Hlook : ∀ i t, ts !! i = Some t → row !! i = Some (interval_of i c d1)).
    { intros i t Hi. unfold row. rewrite list_lookup_fmap.
      rewrite lookup_seq_lt; [done|]. by eapply lookup_lt_Some. }
    pose proof (no_overlap_lookup v row i1 i2 _ _ Hrow Hlt
                  (Hlook _ _ Ht1) (Hlook _ _ Ht2)) as Hapart.
    by apply apart_present in Hapart. }
  intros Hne Ha1 Ha2.
  destruct (Nat.lt_total i1 i2) as [H|[H|H]]; [|done|].
  - by apply (Hlt i1 i2).
  - destruct (Hlt i2 i1 s2 e2 s1 e1 H Ha2 Ha1); [by right | by left].
Qed.

(** Trains of the same name are read back from the same variables. *)
Lemma shared_name_same_values (st : builder) (v : valuation) (t u : train) :
  train_name t = train_name u → solved_values st v t = solved_values st v u.
Proof. unfold solved_values. by intros ->. Qed.

(** X14.  Two trains of the same name are always published with the same
    entry minute, exit minute and track, whatever the solver answers. *)
Lemma shared_name_same_assignment (inp : input) (solve : solver)
    (i j : nat) (t u : train) (x : Z * Z * nat) :
  trains inp !! i = Some t → trains inp !! j = Some u →
  train_name t = train_name u →
  assignment inp solve i = Some x → assignment inp solve j = Some x.
Proof.
  intros Hi Hj Hname. unfold assignment.
  destruct (prepare inp) as [[[ts hz] st]|] eqn:Hp; [|done].
  destruct (solve (cp_model_of st)) as [status v].
  destruct (is_solution status); [|done].
  unfold prepare in Hp.
  apply bind_Ok in Hp as (ts' & Hload & Hp).
  apply bind_Ok in Hp as (hz' & _ & Hp).
  apply bind_Ok in Hp as (st' & _ & [= -> -> ->]).
  destruct (ts !! i) as [t'|] eqn:Hi'; [|done]. simpl.
  pose proof (map_result_lookup _ _ _ _ _ Hload Hj) as (u' & Hu' & _).
  rewrite Hu'. simpl.
  rewrite (shared_name_same_values st v u' t'); [done|].
  rewrite (load_train_name _ _ _ _ _ _ Hload Hi Hi').
  by rewrite (load_train_name _ _ _ _ _ _ Hload Hj Hu').
Qed.

(** On [same_name] every optimal answer of a sound solver is published
    alike: both trains from 480 to 500 on the one track, the first of them
    120 minutes before its release. *)
Lemma same_name_optimal_answer (solve : solver) :
  sound solve →
  (solve (cp_model_of (stages same_name).2)).1 = OPTIMAL →
  release same_name 0 = Some 600
  ∧ assignment same_name solve 0 = Some (480, 500, 0%nat)
  ∧ assignment same_name solve 1 = Some (480, 500, 0%nat).
Proof.
  intros Hsound Hopt.
  set (ts := (stages same_name).1.1).
  set (hz := (stages same_name).1.2).
  set (st := (stages same_name).2) in *.
  assert (Hp : prepare same_name = Ok (ts, hz, st)) by reflexivity.
  destruct (solve (cp_model_of st)) as [status v] eqn:Hs.
  simpl in Hopt. subst status.
  pose proof (Hsound (cp_model_of st)) as H. rewrite Hs in H.
  destruct H as (Hsat & Hmin & _).
  specialize (Hsat (or_intror eq_refl)).
  specialize (Hmin eq_refl same_name_values eq_refl).
  assert (Hvals : v (VStart 1) = 480 ∧ v (VEnd 1) = 500).
  { unfold objective_value in Hmin.
    set (o := objective _) in Hmin. vm_compute in o. subst o.
    unfold satisfies in Hsat.
    set (l := constraints _) in Hsat. vm_compute in l. subst l.
    simpl in Hmin, Hsat. unfold lit, apart, lit in Hsat. simpl in Hsat.
    lia. }
  destruct Hvals as (Hstart & Hend).
  destruct (prepare_Ok _ _ _ _ Hp) as (ds & ends & latest & longest & Hprep).
  assert (Hboth : ∀ i t, ts !! i = Some t → train_name t = Ok "Express"%string →
            assignment same_name solve i = Some (480, 500, 0%nat)).
  { intros i t Hi Hname.
    destruct (solved_values_Ok _ _ _ _ _ _ _ _ _ Hprep Hsat _ _ Hi)
      as (name & j & u & a & c & d & Hn & Hj & _ & _ & _ & Hsv & Hc & _).
    rewrite Hname in Hn. injection Hn as <-.
    assert (j = 1%nat) as -> by (by injection Hj).
    assert (c = 0%nat) as -> by (simpl in Hc; lia).
    unfold assignment. rewrite Hp, Hs. simpl. rewrite Hi. simpl.
    by rewrite Hsv, Hstart, Hend. }
  split; [reflexivity|]. split.
  - by apply (Hboth 0%nat (default ∅ (ts !! 0%nat))).
  - by apply (Hboth 1%nat (default ∅ (ts !! 1%nat))).
Qed.

(** C2 fails on the script: the variables of a train are filed under its
    name, so two trains called alike are both read back from the
    variables of the later one.  Both records show track 1 from
    08:00 AM to 08:20 AM, the two intervals are the same [480, 500). *)
Theorem same_name_trains_overlap :
  sound (checked_solver same_name_values)
  ∧ is_Some (output_json same_name_run)
  ∧ record same_name_run 0 !! "id"%string = Some (JInt 1)
  ∧ record same_name_run 1 !! "id"%string = Some (JInt 2)
  ∧ assignment same_name (checked_solver same_name_values) 0
    = Some (480, 500, 0%nat)
  ∧ assignment same_name (checked_solver same_name_values) 1
    = Some (480, 500, 0%nat)
  ∧ Forall (λ i,
      record same_name_run i !! "assigned_track"%string = Some (JInt 1)
      ∧ record same_name_run i !! "section_entry_time"%string
        = Some (JStr "08:00 AM")
      ∧ record same_name_run i !! "section_exit_time"%string
        = Some (JStr "08:20 AM")) [0%nat; 1%nat].
Proof.
  split; [apply checked_solver_sound|].
  split; [eexists; reflexivity|].
  repeat split; try reflexivity.
  repeat constructor.
Qed.

(** C4 fails on the script, for the same reason: the train that arrives
    at 10:00 (minute 600) is published with the entry minute 480, 08:00 AM,
    which is the entry of the other train of that name. *)
Theorem same_name_train_enters_early :
  sound (checked_solver same_name_values)
  ∧ release same_name 0 = Some 600
  ∧ assignment same_name (checked_solver same_name_values) 0
    = Some (480, 500, 0%nat)
  ∧ record same_name_run 0 !! "arrival_time"%string = Some (JStr "10:00")
  ∧ record same_name_run 0 !! "section_entry_time"%string
    = Some (JStr "08:00 AM").
Proof.
  split; [apply checked_solver_sound|]. by repeat split.
Qed.

(** ** The horizon and the serial schedule *)

Lemma max_of_unique (l : list Z) (m : Z) :
  m ∈ l → (∀ x, x ∈ l → x <= m) → max_of l = Ok m.
Proof.
  intros Hin Hle. destruct (max_of l) as [m'|e] eqn:Hm.
  - destruct (max_of_Ok _ _ Hm) as (Hin' & Hle'). f_equal.
    specialize (Hle _ Hin'). specialize (Hle' _ Hin). lia.
  - destruct l; [by apply elem_of_nil in Hin | done].
Qed.

Lemma holds_CMaxEq (v : valuation) (target : var) (xs : list var) :
  holds v (CMaxEq target xs) = true ↔ max_of (v <$> xs) = Ok (v target).
Proof.
  destruct xs as [|x xs]; simpl; [done|].
  rewrite Z.eqb_eq. split; intros H; [by rewrite H | by injection H].
Qed.

Lemma sum_of_one_hot (v : valuation) (f : nat → var) (k0 s len : nat) :
  (∀ k, v (f k) = if decide (k = k0) then 1 else 0) →
  sum_of v (f <$> seq s len) = if decide (s ≤ k0 < s + len)%nat then 1 else 0.
Proof.
  intros Hv. revert s. induction len as [|len IH]; intros s; simpl.
  - case_decide; [lia | done].
  - rewrite IH, Hv. repeat case_decide; lia.
Qed.

Lemma no_overlap_intro (v : valuation) (ivs : list interval) :
  (∀ p q a b, (p < q)%nat → ivs !! p = Some a → ivs !! q = Some b →
              apart v a b = true) →
  no_overlap v ivs = true.
Proof.
  induction ivs as [|x ivs IH]; intros H; simpl; [done|].
  apply andb_true_iff. split.
  - apply forallb_forall. intros b Hb%list_elem_of_In.
    apply list_elem_of_lookup in Hb as (q & Hq).
    apply (H 0%nat (S q)); [lia | done | done].
  - apply IH. intros p q a b Hpq Hp Hq.
    apply (H (S p) (S q)); [lia | done | done].
Qed.

Lemma latest_arrival_bound (ts : list train) (latest : Z) (j : nat)
    (t : train) (a : Z) :
  latest_arrival ts = Ok latest → ts !! j = Some t → arrival_min t = Ok a →
  a <= latest.
Proof.
  unfold latest_arrival. intros H Hj Ha.
  apply bind_Ok in H as (arrivals & Harr & Hmax).
  destruct (map_result_lookup _ _ _ _ _ Harr Hj) as (a' & Ha' & Heq).
  rewrite Ha in Heq. injection Heq as <-.
  apply (max_of_Ok _ _ Hmax). apply list_elem_of_lookup. eauto.
Qed.

Lemma track_durations_lookup_l (trs : list track) (ds : list Z) (k : nat)
    (tr : track) (d : Z) :
  Load.track_durations trs = Ok ds → trs !! k = Some tr →
  Load.time_min tr = Ok d → ds !! k = Some d.
Proof.
  intros H Htr Hd.
  destruct (map_result_lookup _ _ _ _ _ H Htr) as (d' & Hd' & Heq).
  congruence.
Qed.

Section serial_schedule.
Context (inp : input) (ts : list train) (hz : Z) (st : builder)
  (ds : list Z) (ends : list var) (latest longest : Z) (k : nat) (d : Z).
Hypothesis Hprep : prepared inp ts hz st ds ends latest longest.
Hypothesis Hk : ds !! k = Some d.
Hypothesis Hlatest : 0 <= latest.
Hypothesis Hd : 0 <= d.
Hypothesis Hfit : Z.of_nat (length ts) * d <= longest + 600.

Local Abbreviation v := (serial latest d k (length ts)).
Local Abbreviation n := (length (tracks inp)).

Lemma serial_track_in_range : (k < n)%nat.
Proof.
  rewrite <- (prep_length _ _ _ _ _ _ _ _ Hprep). by eapply lookup_lt_Some.
Qed.

Lemma serial_bounds (j : nat) :
  (j < length ts)%nat →
  0 <= latest + Z.of_nat j * d
  ∧ latest + (Z.of_nat j + 1) * d <= latest + Z.of_nat (length ts) * d
  ∧ latest + Z.of_nat (length ts) * d <= hz.
Proof.
  intros Hj. rewrite (prep_horizon _ _ _ _ _ _ _ _ Hprep).
  assert (Z.of_nat j + 1 <= Z.of_nat (length ts)) by lia. nia.
Qed.

Lemma serial_train_constraint (j : nat) (t : train) (a : Z) (c : constraint) :
  ts !! j = Some t → arrival_min t = Ok a →
  train_constraint hz n j a ds c → holds v c = true.
Proof.
  intros Hj Ha Hc.
  assert (Hlt : (j < length ts)%nat) by by eapply lookup_lt_Some.
  destruct (serial_bounds j Hlt) as (H0 & H1 & H2).
  pose proof (latest_arrival_bound _ _ _ _ _
                (prep_latest _ _ _ _ _ _ _ _ Hprep) Hj Ha) as Hrel.
  destruct Hc as [-> | [-> | [-> | [(k' & d' & Hk' & Hd' & Hc) | [-> | ->] ] ] ] ].
  - simpl. nia.
  - simpl. nia.
  - simpl. nia.
  - unfold track_constraints in Hc.
    rewrite !elem_of_cons, elem_of_nil in Hc.
    destruct Hc as [-> | [-> | [-> | [-> | [] ] ] ] ]; simpl; unfold lit; simpl.
    + case_decide; lia.
    + case_decide as Heq; [|done]. subst k'.
      rewrite Hk in Hd'. injection Hd' as <-. simpl. lia.
    + case_decide; nia.
    + case_decide as Heq; [|done]. subst k'.
      rewrite Hk in Hd'. injection Hd' as <-. simpl. lia.
  - simpl. unfold bools_of.
    rewrite (sum_of_one_hot v (VOnTrack j) k 0 n); [|done].
    pose proof serial_track_in_range. rewrite decide_True by lia. done.
  - apply holds_CMaxEq. apply max_of_unique.
    + apply list_elem_of_fmap. exists (VEndTrack j k). split.
      * simpl. by rewrite decide_True.
      * unfold candidates_of. apply list_elem_of_fmap. exists k.
        split; [done|]. apply elem_of_seq. pose proof serial_track_in_range. lia.
    + intros x Hx. apply list_elem_of_fmap in Hx as (y & -> & Hy).
      unfold candidates_of in Hy.
      apply list_elem_of_fmap in Hy as (k' & -> & _). simpl.
      case_decide; nia.
Qed.

Lemma serial_no_overlap (k' : nat) (d' : Z) :
  ds !! k' = Some d' →
  no_overlap v ((λ j, interval_of j k' d') <$> seq 0 (length ts)) = true.
Proof.
  intros Hd'. apply no_overlap_intro. intros p q a b Hpq Hp Hq.
  rewrite list_lookup_fmap in Hp, Hq.
  destruct (seq 0 (length ts) !! p) as [p'|] eqn:Hp'; [|done].
  destruct (seq 0 (length ts) !! q) as [q'|] eqn:Hq'; [|done].
  apply lookup_seq in Hp' as [-> _]. apply lookup_seq in Hq' as [-> _].
  simpl in Hp, Hq. injection Hp as <-. injection Hq as <-.
  unfold apart, lit. simpl.
  case_decide as Heq; [|done]. simpl.
  apply orb_true_iff. left. apply Z.leb_le.
  assert (Z.of_nat p + 1 <= Z.of_nat q) by lia. nia.
Qed.

Lemma serial_last_exit :
  holds v (CMaxEq VLastExit ends) = true.
Proof.
  pose proof (built_ends _ _ _ _ _ _ (prep_built _ _ _ _ _ _ _ _ Hprep)) as He.
  apply holds_CMaxEq. apply max_of_unique.
  - destruct (decide (ts = [])) as [->|Hne].
    { pose proof (prep_latest _ _ _ _ _ _ _ _ Hprep) as Hl.
      unfold latest_arrival in Hl. simpl in Hl. discriminate. }
    destruct (length ts) as [|m] eqn:Hlen; [by destruct ts|].
    destruct (lookup_lt_is_Some_2 ts m) as (t & Ht); [lia|].
    destruct (Forall2_lookup_l _ _ _ _ _ He Ht) as (e & Hein & name & j & Hn & Hj & ->).
    destruct (holder_ge _ _ _ _ Ht Hn) as (j' & Hj' & Hle).
    rewrite Hj in Hj'. injection Hj' as <-.
    destruct (holder_Some _ _ _ Hj) as (u & Hu & _).
    apply lookup_lt_Some in Hu.
    assert (j = m) as -> by lia.
    apply list_elem_of_fmap. exists (VEnd m). split.
    + simpl. lia.
    + apply list_elem_of_lookup. eauto.
  - intros x Hx. apply list_elem_of_fmap in Hx as (e & -> & Hein).
    apply list_elem_of_lookup in Hein as (i & Hi).
    destruct (Forall2_lookup_r _ _ _ _ _ He Hi) as (t & Ht & name & j & Hn & Hj & ->).
    destruct (holder_Some _ _ _ Hj) as (u & Hu & _).
    apply lookup_lt_Some in Hu.
    destruct (serial_bounds j Hu) as (_ & H1 & _). simpl. lia.
Qed.

Lemma serial_satisfies : satisfies v (cp_model_of st) = true.
Proof.
  apply satisfies_holds. intros c Hc. simpl in Hc.
  apply (built_model _ _ _ _ _ _ (prep_built _ _ _ _ _ _ _ _ Hprep)) in Hc.
  destruct Hc as [(j & t & a & Hj & Ha & Hc) | [(k' & d' & _ & Hd' & ->) | [-> | ->] ] ].
  - by eapply serial_train_constraint.
  - simpl. by apply serial_no_overlap.
  - simpl. rewrite (prep_horizon _ _ _ _ _ _ _ _ Hprep). nia.
  - apply serial_last_exit.
Qed.

End serial_schedule.

(** C5 (as amended).  When the stages before the solver go through, the
    latest arrival is not negative, and some track [k] has a duration
    [d >= 0] with [number of trains * d <= longest_run + 600], the serial
    schedule on track [k] (the [j]-th train enters [j * d] minutes after
    the latest arrival) satisfies every constraint of the model, with
    every entry and exit between 0 and the horizon
    [latest_arrival + longest_run + 600]: the model is feasible. *)
Theorem serial_schedule_fits (inp : input) (ts : list train) (hz : Z)
    (st : builder) (latest longest : Z) (k : nat) (tr : track) (d : Z) :
  prepare inp = Ok (ts, hz, st) →
  latest_arrival ts = Ok latest → longest_run ts = Ok longest →
  tracks inp !! k = Some tr → Load.time_min tr = Ok d →
  0 <= latest → 0 <= d →
  Z.of_nat (length ts) * d <= longest + 600 →
  hz = latest + longest + 600
  ∧ satisfies (serial latest d k (length ts)) (cp_model_of st) = true
  ∧ ∀ j, (j < length ts)%nat →
         0 <= serial latest d k (length ts) (VStart j)
         ∧ serial latest d k (length ts) (VStart j)
           <= serial latest d k (length ts) (VEnd j)
         ∧ serial latest d k (length ts) (VEnd j) <= hz
         ∧ serial latest d k (length ts) (VOnTrack j k) = 1.
Proof.
  intros Hp Hlatest Hlongest Htr Htm H0 Hd Hfit.
  destruct (prepare_Ok _ _ _ _ Hp) as (ds & ends & latest' & longest' & Hprep).
  pose proof (prep_latest _ _ _ _ _ _ _ _ Hprep) as Hl.
  pose proof (prep_longest _ _ _ _ _ _ _ _ Hprep) as Hr.
  rewrite Hlatest in Hl. injection Hl as <-.
  rewrite Hlongest in Hr. injection Hr as <-.
  pose proof (track_durations_lookup_l _ _ _ _ _
                (prep_durations _ _ _ _ _ _ _ _ Hprep) Htr Htm) as Hk.
  split; [exact (prep_horizon _ _ _ _ _ _ _ _ Hprep)|].
  split; [by eapply serial_satisfies|].
  intros j Hj.
  destruct (serial_bounds _ _ _ _ _ _ _ _ d Hprep H0 Hd Hfit j Hj) as (Ha & Hb & Hc).
  simpl. rewrite decide_True by done. repeat split; nia.
Qed.

Lemma serial_schedule_fits_witness :
  (stages two_on_one).1.2 = 485 + 20 + 600
  ∧ satisfies (serial 485 20 0 (length (stages two_on_one).1.1))
      (cp_model_of (stages two_on_one).2) = true
  ∧ ∀ j, (j < length (stages two_on_one).1.1)%nat →
         0 <= serial 485 20 0 (length (stages two_on_one).1.1) (VStart j)
         ∧ serial 485 20 0 (length (stages two_on_one).1.1) (VStart j)
           <= serial 485 20 0 (length (stages two_on_one).1.1) (VEnd j)
         ∧ serial 485 20 0 (length (stages two_on_one).1.1) (VEnd j)
           <= (stages two_on_one).1.2
         ∧ serial 485 20 0 (length (stages two_on_one).1.1) (VOnTrack j 0) = 1.
Proof.
  apply (serial_schedule_fits two_on_one _ _ _ 485 20 0
           {| length_km := 20; speed_kmph := 60 |} 20).
  - reflexivity.
  - reflexivity.
  - reflexivity.
  - reflexivity.
  - reflexivity.
  - lia.
  - lia.
  - vm_compute. discriminate.
Defined.

(** C5 fails as stated: one track of 960 minutes and two trains that
    arrive at midnight give the horizon 0 + 960 + 600 = 1560, but the
    second train of any order leaves at minute 1920 at the earliest.  No
    values satisfy the model. *)
Lemma serial_order_does_not_fit :
  length (tracks two_long_runs) = 1%nat
  ∧ length (trains two_long_runs) = 2%nat
  ∧ prepare two_long_runs = Ok (stages two_long_runs)
  ∧ (stages two_long_runs).1.2 = 1560
  ∧ ∀ v, satisfies v (cp_model_of (stages two_long_runs).2) = false.
Proof.
  repeat split.
  intros v. apply not_true_is_false. intros H.
  unfold satisfies in H.
  set (l := constraints _) in H. vm_compute in l. subst l.
  simpl in H. unfold lit, apart, lit in H. simpl in H.
  lia.
Qed.

(** * Further properties of the script *)

(** ** The time codec *)

Lemma forallb_Z_range (f : Z → bool) (n : nat) :
  forallb (λ k, f (Z.of_nat k)) (seq 0 n) = true →
  ∀ z, 0 <= z < Z.of_nat n → f z = true.
Proof.
  intros H z Hz. rewrite forallb_forall in H.
  specialize (H (Z.to_nat z)). rewrite Z2Nat.id in H by lia.
  apply H, in_seq. lia.
Qed.

Lemma result_Z_eqb (r : result Z) (z : Z) :
  (match r with Ok x => x =? z | Raise _ => false end) = true → r = Ok z.
Proof. destruct r as [x|e]; [|done]. by intros ->%Z.eqb_eq. Qed.

(** X1.  A time written [HH:MM] with two digits each is parsed to
    [h * 60 + m], for every [h] and [m] below 100: neither the hour nor
    the minute is checked against 24 or 60. *)
Theorem parse_padded_time (h m : Z) :
  0 <= h < 100 → 0 <= m < 100 →
  Codec.parse_time_to_minutes (padded_time h m) = Ok (h * 60 + m).
Proof.
  intros Hh Hm. apply result_Z_eqb.
  revert m Hm.
  apply (forallb_Z_range
           (λ m, match Codec.parse_time_to_minutes (padded_time h m) with
                 | Ok x => x =? h * 60 + m
                 | Raise _ => false
                 end) 100).
  revert h Hh.
  apply (forallb_Z_range
           (λ h, forallb
                   (λ k, match Codec.parse_time_to_minutes
                                 (padded_time h (Z.of_nat k)) with
                         | Ok x => x =? h * 60 + Z.of_nat k
                         | Raise _ => false
                         end) (seq 0 100)) 100).
  by vm_compute.
Qed.

Lemma parse_padded_time_witness :
  Codec.parse_time_to_minutes (padded_time 25 61) = Ok (25 * 60 + 61).
Proof. apply parse_padded_time; lia. Defined.

Lemma split_colon_length (cur s : string) :
  length (Codec.split_colon cur s) = S (colons s).
Proof.
  revert cur. induction s as [|c s IH]; intros cur; simpl; [done|].
  destruct (Ascii.eqb c ":"); simpl; by rewrite IH.
Qed.

Lemma int_of_str_error (s : string) (e : exn) :
  Codec.int_of_str s = Raise e → e = ValueError.
Proof.
  unfold Codec.int_of_str.
  destruct (Codec.to_ascii s) as [a|]; [|congruence].
  destruct (Codec.max_str_digits <? Codec.digit_count a); [congruence|].
  destruct (match Codec.lstrip a with
            | String "+" r => Codec.unsigned r
            | String "-" r => Z.opp <$> Codec.unsigned r
            | s' => Codec.unsigned s'
            end); simpl; congruence.
Qed.

(** X2.  [parse_time_to_minutes] only ever raises [ValueError], and a
    string it accepts has exactly one colon. *)
Theorem parse_time_outcome (s : string) :
  match Codec.parse_time_to_minutes s with
  | Ok _ => colons s = 1%nat
  | Raise e => e = ValueError
  end.
Proof.
  unfold Codec.parse_time_to_minutes.
  pose proof (split_colon_length EmptyString s) as Hlen.
  destruct (Codec.split_colon EmptyString s) as [|a [|b [|c l]]]; try done.
  destruct (Codec.int_of_str a) as [x|e] eqn:Ha; simpl;
    [|by apply int_of_str_error in Ha].
  destruct (Codec.int_of_str b) as [y|e] eqn:Hb; simpl;
    [|by apply int_of_str_error in Hb].
  simpl in Hlen. lia.
Qed.

Lemma clock_label (m : Z) (label : string) :
  Codec.minutes_to_clock m = Ok label →
  Codec.min_minutes <= m <= Codec.max_minutes
  ∧ label = label_of_minute (m mod 1440) ∧ 0 <= m mod 1440 < 1440.
Proof.
  intros H.
  destruct (Z.lt_ge_cases m Codec.min_minutes) as [Hlo|Hlo];
    [by rewrite minutes_to_clock_below in H|].
  destruct (Z.lt_ge_cases Codec.max_minutes m) as [Hhi|Hhi];
    [by rewrite minutes_to_clock_beyond in H|].
  rewrite minutes_to_clock_in_range in H by done. injection H as <-.
  split; [done|]. split; [done|]. apply Z.mod_pos_bound. lia.
Qed.

(** X3.  The script cannot read its own labels: whatever
    [minutes_to_clock] returns, [parse_time_to_minutes] rejects with
    [ValueError] (the minutes are followed by AM or PM). *)
Theorem clock_label_not_parsed (m : Z) (label : string) :
  Codec.minutes_to_clock m = Ok label →
  Codec.parse_time_to_minutes label = Raise ValueError.
Proof.
  intros (_ & -> & Hr)%clock_label.
  assert (H : (match Codec.parse_time_to_minutes (label_of_minute (m mod 1440)) with
               | Raise ValueError => true
               | _ => false
               end) = true).
  { revert Hr. generalize (m mod 1440). intros r Hr. revert r Hr.
    apply (forallb_Z_range
             (λ r, match Codec.parse_time_to_minutes (label_of_minute r) with
                   | Raise ValueError => true
                   | _ => false
                   end) 1440).
    by vm_compute. }
  destruct (Codec.parse_time_to_minutes _) as [|[]]; done.
Qed.

Lemma clock_label_not_parsed_witness :
  Codec.parse_time_to_minutes "08:20 AM" = Raise ValueError.
Proof. apply (clock_label_not_parsed 500). reflexivity. Defined.

Lemma minute_of_label_strftime (r : Z) :
  0 <= r < 1440 → minute_of_label (label_of_minute r) = r.
Proof.
  intros Hr. apply Z.eqb_eq. revert r Hr.
  apply (forallb_Z_range
           (λ r, minute_of_label (label_of_minute r) =? r) 1440).
  by vm_compute.
Qed.

(** X4.  Within the range of [datetime], two minute offsets get the same
    label exactly when they are the same minute of the day: labels never
    tell days apart, and within one day no two minutes share a label. *)
Theorem clock_labels_equal_iff (m n : Z) :
  Codec.min_minutes <= m <= Codec.max_minutes →
  Codec.min_minutes <= n <= Codec.max_minutes →
  Codec.minutes_to_clock m = Codec.minutes_to_clock n ↔ m mod 1440 = n mod 1440.
Proof.
  intros Hm Hn. rewrite !minutes_to_clock_in_range by done. split.
  - intros H.
    assert (H' : label_of_minute (m mod 1440) = label_of_minute (n mod 1440))
      by congruence.
    rewrite <- (minute_of_label_strftime (m mod 1440))
      by (apply Z.mod_pos_bound; lia).
    rewrite <- (minute_of_label_strftime (n mod 1440))
      by (apply Z.mod_pos_bound; lia).
    by rewrite H'.
  - by intros ->.
Qed.

Lemma clock_labels_equal_iff_witness :
  Codec.minutes_to_clock 500 = Codec.minutes_to_clock 1940
  ↔ 500 mod 1440 = 1940 mod 1440.
Proof. apply clock_labels_equal_iff; vm_compute; split; discriminate. Defined.

(** X5.  A 24-hour time [HH:MM] that is parsed and converted back comes
    out as the 12-hour label of the same time: hour 0 is 12 AM, hour 12 is
    12 PM, hours 13 to 23 are 01 to 11 PM, the minutes are kept. *)
Theorem clock_of_parsed_time (h m : Z) :
  0 <= h < 24 → 0 <= m < 60 →
  Codec.parse_time_to_minutes (padded_time h m) ≫= Codec.minutes_to_clock
  = Ok (label_of h m).
Proof.
  intros Hh Hm. rewrite parse_padded_time by lia. simpl.
  rewrite minutes_to_clock_in_range.
  2:{ assert (Codec.min_minutes < 0) by reflexivity.
      assert (1440 < Codec.max_minutes) by reflexivity. lia. }
  f_equal. unfold label_of_minute, label_of.
  assert (Hmod : (h * 60 + m) mod 1440 = h * 60 + m) by (apply Z.mod_small; lia).
  assert (Hdiv : (h * 60 + m) / 60 = h).
  { rewrite Z.add_comm, Z.div_add by lia. rewrite Z.div_small by lia. lia. }
  assert (Hmin : (h * 60 + m) mod 60 = m).
  { rewrite Z.add_comm, Z.mod_add by lia. apply Z.mod_small. lia. }
  rewrite Hmod, Hdiv, Hmin. reflexivity.
Qed.

Lemma clock_of_parsed_time_witness :
  Codec.parse_time_to_minutes (padded_time 13 5) ≫= Codec.minutes_to_clock
  = Ok (label_of 13 5).
Proof. apply clock_of_parsed_time; lia. Defined.

(** ** Loading, once more *)

Lemma load_train_arrival (trs : list track) (t t' : train) :
  Load.load_train trs t = Ok t' →
  ∃ time_str a,
    t !! "arrival_time"%string = Some (JStr time_str)
    ∧ Codec.parse_time_to_minutes time_str = Ok a
    ∧ arrival_min t' = Ok a.
Proof.
  unfold Load.load_train. intros H.
  apply bind_Ok in H as (ds & _ & H).
  apply bind_Ok in H as (time_str & Hts & H).
  apply bind_Ok in H as (a & Ha & [= <-]).
  apply bind_Ok in Hts as (j & Hj%of_option_Ok & Hstr).
  rewrite lookup_insert_ne in Hj by done.
  destruct j; try done. injection Hstr as ->.
  exists time_str, a. split; [done|]. split; [done|].
  unfold arrival_min, getitem. by rewrite lookup_insert_eq.
Qed.

(** X6.  After loading, every train record holds the same list of
    durations, one per track and computed from the tracks alone, and its
    [arrival_min] is its [arrival_time] parsed. *)
Theorem loaded_record (trs : list track) (ts ts' : list train)
    (i : nat) (t' : train) :
  Load.load trs ts = Ok ts' → ts' !! i = Some t' →
  ∃ ds t time_str a,
    Load.track_durations trs = Ok ds ∧ length ds = length trs
    ∧ durations t' = Ok ds
    ∧ ts !! i = Some t
    ∧ t !! "arrival_time"%string = Some (JStr time_str)
    ∧ Codec.parse_time_to_minutes time_str = Ok a
    ∧ arrival_min t' = Ok a.
Proof.
  intros Hload Hi. pose proof Hload as H%load_Ok.
  destruct (Forall2_lookup_r _ _ _ _ _ H Hi) as (t & Ht & Hlt).
  destruct (load_train_Ok _ _ _ Hlt) as (ds & a' & Hds & Hd & _ & _).
  destruct (load_train_arrival _ _ _ Hlt) as (time_str & a & Hstr & Hparse & Ha).
  exists ds, t, time_str, a. repeat split; try done.
  by apply track_durations_length.
Qed.

Lemma loaded_record_witness :
  ∃ ds t time_str a,
    Load.track_durations (tracks two_on_one) = Ok ds
    ∧ length ds = length (tracks two_on_one)
    ∧ durations (default ∅ ((stages two_on_one).1.1 !! 1%nat)) = Ok ds
    ∧ trains two_on_one !! 1%nat = Some t
    ∧ t !! "arrival_time"%string = Some (JStr time_str)
    ∧ Codec.parse_time_to_minutes time_str = Ok a
    ∧ arrival_min (default ∅ ((stages two_on_one).1.1 !! 1%nat)) = Ok a.
Proof.
  apply (loaded_record (tracks two_on_one) (trains two_on_one)
           (stages two_on_one).1.1 1); reflexivity.
Defined.

Lemma map_result_Raise {A B} (f : A → result B) (before after : list A)
    (before' : list B) (x : A) (e : exn) :
  map_result f before = Ok before' → f x = Raise e →
  map_result f (before ++ x :: after) = Raise e.
Proof.
  revert before'. induction before as [|y before IH]; intros before' Hb Hx; simpl.
  - by rewrite Hx.
  - simpl in Hb. apply bind_Ok in Hb as (y' & -> & Hb).
    apply bind_Ok in Hb as (ys & Hys & _). simpl.
    by rewrite (IH ys Hys Hx).
Qed.

Lemma parse_time_error (s : string) (e : exn) :
  Codec.parse_time_to_minutes s = Raise e → e = ValueError.
Proof.
  unfold Codec.parse_time_to_minutes.
  destruct (Codec.split_colon EmptyString s) as [|a [|b [|c l]]]; try congruence.
  destruct (Codec.int_of_str a) as [x|e'] eqn:Ha; simpl.
  - destruct (Codec.int_of_str b) as [y|e''] eqn:Hb; simpl; [done|].
    intros [= <-]. by apply int_of_str_error in Hb.
  - intros [= <-]. by apply int_of_str_error in Ha.
Qed.

Lemma load_train_raises (inp : input) (before after before' : list train)
    (t : train) (e : exn) (solve : solver) :
  trains inp = before ++ t :: after →
  Load.load (tracks inp) before = Ok before' →
  Load.load_train (tracks inp) t = Raise e →
  main inp solve = crashed e.
Proof.
  intros Hts Hbefore He. apply main_crashed. unfold prepare, Load.load.
  rewrite Hts. by rewrite (map_result_Raise _ _ _ _ _ _ Hbefore He).
Qed.

(** X7.  The first train record without [arrival_time] ends the run with
    [KeyError] before the model is built, with nothing printed and
    [output.json] untouched, if the trains before it load and the track
    durations compute. *)
Theorem missing_arrival_raises (inp : input) (before after : list train)
    (before' : list train) (ds : list Z) (t : train) (solve : solver) :
  trains inp = before ++ t :: after →
  Load.track_durations (tracks inp) = Ok ds →
  Load.load (tracks inp) before = Ok before' →
  t !! "arrival_time"%string = None →
  main inp solve = crashed KeyError.
Proof.
  intros Hts Hds Hbefore Hnone.
  apply (load_train_raises inp before after before' t); [done..|].
  unfold Load.load_train. rewrite Hds. simpl.
  unfold getitem. rewrite lookup_insert_ne by done. by rewrite Hnone.
Qed.

(** X22.  The first train record whose [arrival_time] is not a string
    ends the run with [AttributeError] (the value has no [split]) before
    the model is built, with nothing printed and [output.json] untouched,
    if the trains before it load and the track durations compute. *)
Theorem arrival_not_a_string_raises (inp : input)
    (before after : list train) (before' : list train) (ds : list Z)
    (t : train) (j : json) (solve : solver) :
  trains inp = before ++ t :: after →
  Load.track_durations (tracks inp) = Ok ds →
  Load.load (tracks inp) before = Ok before' →
  t !! "arrival_time"%string = Some j →
  (∀ s, j ≠ JStr s) →
  main inp solve = crashed AttributeError.
Proof.
  intros Hts Hds Hbefore Hj Hstr.
  apply (load_train_raises inp before after before' t); [done..|].
  unfold Load.load_train. rewrite Hds. simpl.
  unfold getitem. rewrite lookup_insert_ne by done. rewrite Hj. simpl.
  destruct j; try done. by destruct (Hstr s).
Qed.

(** X23.  The first train record whose [arrival_time] is a string that
    [parse_time_to_minutes] rejects ends the run with [ValueError] before
    the model is built, with nothing printed and [output.json] untouched,
    if the trains before it load and the track durations compute. *)
Theorem arrival_not_a_time_raises (inp : input)
    (before after : list train) (before' : list train) (ds : list Z)
    (t : train) (s : string) (solve : solver) :
  trains inp = before ++ t :: after →
  Load.track_durations (tracks inp) = Ok ds →
  Load.load (tracks inp) before = Ok before' →
  t !! "arrival_time"%string = Some (JStr s) →
  is_ok (Codec.parse_time_to_minutes s) = false →
  main inp solve = crashed ValueError.
Proof.
  intros Hts Hds Hbefore Hs Hbad.
  apply (load_train_raises inp before after before' t); [done..|].
  unfold Load.load_train. rewrite Hds. simpl.
  unfold getitem. rewrite lookup_insert_ne by done. rewrite Hs. simpl.
  destruct (Codec.parse_time_to_minutes s) as [a|e] eqn:Hp; [done|].
  simpl. by rewrite (parse_time_error _ _ Hp).
Qed.

(** X15.  Without trains the run ends with [ValueError], raised by [max]
    over the empty sequence of arrivals, whatever the tracks are; nothing
    is written. *)
Theorem no_trains_raise (inp : input) (solve : solver) :
  trains inp = [] →
  main inp solve = crashed ValueError
  ∧ output_json (main inp solve) = None.
Proof.
  intros Hts.
  assert (H : main inp solve = crashed ValueError).
  { apply main_crashed. unfold prepare. by rewrite Hts. }
  by rewrite H.
Qed.

Lemma missing_arrival_raises_witness :
  main no_arrival (checked_solver two_on_one_values) = crashed KeyError.
Proof.
  apply (missing_arrival_raises no_arrival
           [sample_train 1 "Rajdhani" "08:00" 1] []
           (loaded_trains (tracks no_arrival) [sample_train 1 "Rajdhani" "08:00" 1])
           [20]
           (delete "arrival_time"%string (sample_train 2 "Passenger" "08:05" 5)));
    reflexivity.
Defined.

Lemma arrival_not_a_string_raises_witness :
  main arrival_number (checked_solver two_on_one_values)
  = crashed AttributeError.
Proof.
  apply (arrival_not_a_string_raises arrival_number
           [sample_train 1 "Rajdhani" "08:00" 1] []
           (loaded_trains (tracks arrival_number)
              [sample_train 1 "Rajdhani" "08:00" 1])
           [20]
           (<["arrival_time" := JInt 805]> (sample_train 2 "Passenger" "08:05" 5))
           (JInt 805)).
  - reflexivity.
  - reflexivity.
  - reflexivity.
  - reflexivity.
  - discriminate.
Defined.

Lemma arrival_not_a_time_raises_witness :
  main arrival_label (checked_solver two_on_one_values) = crashed ValueError.
Proof.
  apply (arrival_not_a_time_raises arrival_label
           [sample_train 1 "Rajdhani" "08:00" 1] []
           (loaded_trains (tracks arrival_label)
              [sample_train 1 "Rajdhani" "08:00" 1])
           [20] (sample_train 2 "Passenger" "08:05 AM" 5) "08:05 AM");
    reflexivity.
Defined.

Lemma no_trains_raise_witness :
  main no_train (checked_solver two_on_one_values) = crashed ValueError
  ∧ output_json (main no_train (checked_solver two_on_one_values)) = None.
Proof. apply no_trains_raise. reflexivity. Defined.

(** ** Invariants of a published schedule *)

Lemma tracks_chosen_none (v : valuation) (bs : list var) (k : nat) :
  (∀ b, b ∈ bs → 0 <= v b <= 1) → sum_of v bs = 0 →
  tracks_chosen v k bs = [].
Proof.
  revert k. induction bs as [|b bs IH]; intros k Hdom Hsum; simpl in *; [done|].
  assert (0 <= v b <= 1) by (apply Hdom; left).
  assert (Hrest : ∀ x, x ∈ bs → 0 <= v x <= 1) by (intros x Hx; apply Hdom; by right).
  assert (0 <= sum_of v bs).
  { clear -Hrest. induction bs as [|x bs IH]; simpl; [lia|].
    assert (0 <= v x <= 1) by (apply Hrest; left).
    assert (0 <= sum_of v bs) by (apply IH; intros y Hy; apply Hrest; by right).
    lia. }
  destruct (v b =? 1) eqn:Hb; [apply Z.eqb_eq in Hb; lia|].
  apply IH; [done | lia].
Qed.

Lemma tracks_chosen_one (v : valuation) (bs : list var) (k : nat) :
  (∀ b, b ∈ bs → 0 <= v b <= 1) → sum_of v bs = 1 →
  ∃ c, tracks_chosen v k bs = [(k + c)%nat] ∧ (c < length bs)%nat.
Proof.
  revert k. induction bs as [|b bs IH]; intros k Hdom Hsum; simpl in *; [lia|].
  assert (0 <= v b <= 1) by (apply Hdom; left).
  assert (Hrest : ∀ x, x ∈ bs → 0 <= v x <= 1) by (intros x Hx; apply Hdom; by right).
  destruct (v b =? 1) eqn:Hb.
  - apply Z.eqb_eq in Hb. exists 0%nat. rewrite Nat.add_0_r. split; [|lia].
    f_equal. apply tracks_chosen_none; [done | lia].
  - apply Z.eqb_neq in Hb.
    destruct (IH (S k) Hrest) as (c & Hc & Hlt); [lia|].
    exists (S c). rewrite Nat.add_succ_r. split; [done | lia].
Qed.

Section published.
Context (inp : input) (ts : list train) (hz : Z) (st : builder)
  (ds : list Z) (ends : list var) (latest longest : Z) (v : valuation).
Hypothesis Hprep : prepared inp ts hz st ds ends latest longest.
Hypothesis Hsat : satisfies v (cp_model_of st) = true.

Lemma one_bool_is_set (j : nat) (t : train) (a : Z) :
  ts !! j = Some t → arrival_min t = Ok a →
  ∃ c, tracks_chosen v 0 (bools_of j (length (tracks inp))) = [c]
       ∧ (c < length (tracks inp))%nat.
Proof.
  intros Hj Ha.
  destruct (tracks_chosen_one v (bools_of j (length (tracks inp))) 0)
    as (c & Hc & Hlt).
  - intros b Hb. unfold bools_of in Hb.
    apply list_elem_of_fmap in Hb as (k & -> & Hk%elem_of_seq).
    destruct (lookup_lt_is_Some_2 ds k) as (d & Hd).
    { rewrite (prep_length _ _ _ _ _ _ _ _ Hprep). lia. }
    assert (H : holds v (CDomain (VOnTrack j k) 0 1) = true).
    { apply (solution_holds _ _ _ _ _ _ _ _ _ Hprep Hsat j t a); [done..|].
      do 3 right. left. exists k, d. split; [lia|]. split; [done|]. by left. }
    simpl in H. lia.
  - assert (H : holds v (CSumEq (bools_of j (length (tracks inp))) 1) = true).
    { apply (solution_holds _ _ _ _ _ _ _ _ _ Hprep Hsat j t a); [done..|].
      do 4 right. by left. }
    simpl in H. lia.
  - exists c. split; [done|].
    unfold bools_of in Hlt. by rewrite length_fmap, length_seq in Hlt.
Qed.

Lemma last_exit_is_max :
  max_of (v <$> ends) = Ok (v VLastExit).
Proof.
  apply holds_CMaxEq. apply (proj1 (satisfies_holds _ _) Hsat). simpl.
  apply (built_model _ _ _ _ _ _ (prep_built _ _ _ _ _ _ _ _ Hprep)). tauto.
Qed.

Lemma end_is_published (i : nat) (x : var) :
  ends !! i = Some x →
  ∃ t s c, ts !! i = Some t ∧ solved_values st v t = Ok (s, v x, c).
Proof.
  intros Hx.
  pose proof (built_ends _ _ _ _ _ _ (prep_built _ _ _ _ _ _ _ _ Hprep)) as He.
  destruct (Forall2_lookup_r _ _ _ _ _ He Hx) as (t & Ht & name & j & Hn & Hj & ->).
  destruct (solved_values_Ok _ _ _ _ _ _ _ _ _ Hprep Hsat _ _ Ht)
    as (name' & j' & u & a & c & d & Hn' & Hj' & _ & _ & _ & Hsv & _).
  rewrite Hn in Hn'. injection Hn' as <-.
  rewrite Hj in Hj'. injection Hj' as <-.
  by exists t, (v (VStart j)), c.
Qed.

End published.

(** X8.  With a sound solver, the entry and the exit minute behind every
    published record lie between 0 and the horizon
    [latest_arrival + longest_run + 600], and the track is one of the
    input's tracks. *)
Theorem published_within_horizon (inp : input) (solve : solver) (i : nat)
    (s e : Z) (c : nat) :
  sound solve →
  assignment inp solve i = Some (s, e, c) →
  ∃ ts hz st latest longest,
    prepare inp = Ok (ts, hz, st)
    ∧ latest_arrival ts = Ok latest ∧ longest_run ts = Ok longest
    ∧ hz = latest + longest + 600
    ∧ 0 <= s <= hz ∧ 0 <= e <= hz
    ∧ (c < length (tracks inp))%nat.
Proof.
  intros Hsound Ha.
  destruct (assignment_Some _ _ _ _ _ _ Ha)
    as (ts & hz & st & status & v & t & Hp & Hs & Hst & Ht & Hsv).
  destruct (prepare_Ok _ _ _ _ Hp) as (ds & ends & latest & longest & Hprep).
  pose proof (sound_satisfies _ _ _ _ Hsound Hs Hst) as Hsat.
  destruct (solved_values_Ok _ _ _ _ _ _ _ _ _ Hprep Hsat _ _ Ht)
    as (name & j & u & a & c' & d & _ & _ & _ & _ & _ & Hsv' & Hc & _ & _ & _ & _ & _ & Hstart & Hend).
  rewrite Hsv in Hsv'. injection Hsv' as -> -> ->.
  exists ts, hz, st, latest, longest.
  destruct Hprep as [_ _ _ _ Hlatest Hlongest Hhz _]. split_and!; try done; lia.
Qed.

Lemma published_within_horizon_witness :
  ∃ ts hz st latest longest,
    prepare two_on_one = Ok (ts, hz, st)
    ∧ latest_arrival ts = Ok latest ∧ longest_run ts = Ok longest
    ∧ hz = latest + longest + 600
    ∧ 0 <= 500 <= hz ∧ 0 <= 520 <= hz
    ∧ (0 < length (tracks two_on_one))%nat.
Proof.
  apply (published_within_horizon two_on_one
           (checked_solver two_on_one_values) 1 500 520 0).
  - apply checked_solver_sound.
  - reflexivity.
Defined.

(** X9.  With a sound solver, the list of tracks whose boolean is 1 has
    exactly one element for every published train: the track that is
    published is the only one chosen, and it is one of the input's
    tracks. *)
Theorem one_track_chosen (inp : input) (solve : solver) (i : nat)
    (s e : Z) (c : nat) :
  sound solve →
  assignment inp solve i = Some (s, e, c) →
  tracks_read inp solve i = Some [c] ∧ (c < length (tracks inp))%nat.
Proof.
  intros Hsound Ha.
  destruct (assignment_Some _ _ _ _ _ _ Ha)
    as (ts & hz & st & status & v & t & Hp & Hs & Hst & Ht & Hsv).
  destruct (prepare_Ok _ _ _ _ Hp) as (ds & ends & latest & longest & Hprep).
  pose proof (sound_satisfies _ _ _ _ Hsound Hs Hst) as Hsat.
  destruct (train_has_holder _ _ _ _ _ _ _ _ Hprep _ _ Ht)
    as (name & j & u & a & Hn & Hj & Hu & _ & Hau & _).
  destruct (one_bool_is_set _ _ _ _ _ _ _ _ _ Hprep Hsat j u a Hu Hau)
    as (c' & Hc' & Hlt).
  pose proof (built_track_assignments _ _ _ _ _ _
                (prep_built _ _ _ _ _ _ _ _ Hprep) name) as Hta.
  rewrite Hj in Hta. simpl in Hta.
  assert (c = c') as <-.
  { unfold solved_values in Hsv. rewrite Hn in Hsv. simpl in Hsv.
    apply bind_Ok in Hsv as (s' & _ & Hsv).
    apply bind_Ok in Hsv as (e' & _ & Hsv).
    apply bind_Ok in Hsv as (bs & Hbs%of_option_Ok & Hsv).
    apply bind_Ok in Hsv as (c0 & Hc0%of_option_Ok & [= _ _ <-]).
    rewrite Hta in Hbs. injection Hbs as <-.
    rewrite Hc' in Hc0. by injection Hc0. }
  split; [|done].
  unfold tracks_read. rewrite Hp, Hs, Hst, Ht. simpl.
  by rewrite Hn, Hta, <- Hc'.
Qed.

Lemma one_track_chosen_witness :
  tracks_read two_on_one (checked_solver two_on_one_values) 1 = Some [0%nat]
  ∧ (0 < length (tracks two_on_one))%nat.
Proof.
  apply (one_track_chosen two_on_one (checked_solver two_on_one_values) 1 500 520).
  - apply checked_solver_sound.
  - reflexivity.
Defined.

(** X10.  With a sound solver, the published
    [last_section_clearance_time] is the label of the latest of the
    published exit minutes, one exit per train. *)
Theorem last_clearance_is_latest_exit (inp : input) (solve : solver)
    (out : output_data) :
  sound solve →
  output_json (main inp solve) = Some out →
  ∃ exits latest_exit,
    length exits = length (trains inp)
    ∧ (∀ i e, exits !! i = Some e →
              ∃ s c, assignment inp solve i = Some (s, e, c))
    ∧ max_of exits = Ok latest_exit
    ∧ Codec.minutes_to_clock latest_exit
      = Ok (last_section_clearance_time out).
Proof.
  intros Hsound Hout.
  destruct (main_published _ _ _ Hout)
    as (ts & hz & st & status & v & Hp & Hs & Hst & Hex).
  destruct (prepare_Ok _ _ _ _ Hp) as (ds & ends & latest & longest & Hprep).
  pose proof (sound_satisfies _ _ _ _ Hsound Hs Hst) as Hsat.
  exists (v <$> ends), (v VLastExit). repeat split.
  - rewrite length_fmap.
    pose proof (built_ends _ _ _ _ _ _ (prep_built _ _ _ _ _ _ _ _ Hprep)) as He.
    rewrite <- (Forall2_length _ _ _ He).
    by apply (map_result_length _ _ _ (prep_load _ _ _ _ _ _ _ _ Hprep)).
  - intros i e Hi. rewrite list_lookup_fmap in Hi.
    destruct (ends !! i) as [x|] eqn:Hx; [|done]. injection Hi as <-.
    destruct (end_is_published _ _ _ _ _ _ _ _ _ Hprep Hsat _ _ Hx)
      as (t & s & c & Ht & Hsv).
    exists s, c. unfold assignment. rewrite Hp, Hs, Hst, Ht. simpl.
    by rewrite Hsv.
  - by eapply last_exit_is_max.
  - unfold extract in Hex.
    apply bind_Ok in Hex as (enriched & _ & Hex).
    by apply bind_Ok in Hex as (clearance & Hcl & [= <-]).
Qed.

Lemma last_clearance_is_latest_exit_witness :
  ∃ exits latest_exit,
    length exits = length (trains two_on_one)
    ∧ (∀ i e, exits !! i = Some e →
              ∃ s c, assignment two_on_one (checked_solver two_on_one_values) i
                     = Some (s, e, c))
    ∧ max_of exits = Ok latest_exit
    ∧ Codec.minutes_to_clock latest_exit
      = Ok (last_section_clearance_time (written two_on_one_run)).
Proof.
  apply (last_clearance_is_latest_exit two_on_one
           (checked_solver two_on_one_values)).
  - apply checked_solver_sound.
  - reflexivity.
Defined.

Lemma two_long_runs_infeasible (v : valuation) :
  satisfies v (cp_model_of (stages two_long_runs).2) = false.
Proof.
  apply not_true_is_false. intros H. unfold satisfies in H.
  set (l := constraints _) in H. vm_compute in l. subst l.
  simpl in H. unfold lit, apart, lit in H. simpl in H. lia.
Qed.

(** X21.  When the model has no solution, a run with a sound solver
    publishes nothing: it prints the no-solution message and leaves
    [output.json] unwritten. *)
Theorem no_schedule_when_infeasible (inp : input) (solve : solver)
    (ts : list train) (hz : Z) (st : builder) :
  sound solve →
  prepare inp = Ok (ts, hz, st) →
  (∀ v, satisfies v (cp_model_of st) = false) →
  main inp solve
  = {| uncaught := None;
       stdout := "No feasible solution found.";
       output_json := None;
       cut_short := false |}.
Proof.
  intros Hsound Hp Hno. unfold main. rewrite Hp.
  specialize (Hsound (cp_model_of st)).
  destruct (solve (cp_model_of st)) as [status v].
  destruct Hsound as (Hsat & _).
  destruct status; simpl; try done.
  - specialize (Hsat (or_introl eq_refl)). by rewrite Hno in Hsat.
  - specialize (Hsat (or_intror eq_refl)). by rewrite Hno in Hsat.
Qed.

Lemma no_schedule_when_infeasible_witness :
  main two_long_runs (checked_solver two_on_one_values)
  = {| uncaught := None;
       stdout := "No feasible solution found.";
       output_json := None;
       cut_short := false |}.
Proof.
  apply (no_schedule_when_infeasible two_long_runs _
           (stages two_long_runs).1.1 (stages two_long_runs).1.2
           (stages two_long_runs).2).
  - apply checked_solver_sound.
  - reflexivity.
  - apply two_long_runs_infeasible.
Defined.

(** ** The objective *)

(** X16.  The objective has one term per train and none for
    [last_section_exit].  When no two trains have the same name, the term
    of the [i]-th train is [(10 - priority) * end] of that train. *)
Theorem objective_terms (inp : input) (ts : list train) (hz : Z)
    (st : builder) :
  prepare inp = Ok (ts, hz, st) →
  length (objective (cp_model_of st)) = length (trains inp)
  ∧ (∀ w x, (w, x) ∈ objective (cp_model_of st) → ∃ j, x = VEnd j)
  ∧ (distinct_names (trains inp) →
     ∀ i t, ts !! i = Some t →
            ∃ p, priority t = Ok p
                 ∧ objective (cp_model_of st) !! i = Some (10 - p, VEnd i)).
Proof.
  intros Hp.
  destruct (prepare_Ok _ _ _ _ Hp) as (ds & ends & latest & longest & Hprep).
  pose proof (built_weights _ _ _ _ _ _ (prep_built _ _ _ _ _ _ _ _ Hprep)) as Hw.
  simpl. repeat split.
  - rewrite <- (Forall2_length _ _ _ Hw).
    by apply (map_result_length _ _ _ (prep_load _ _ _ _ _ _ _ _ Hprep)).
  - intros w x Hin. apply list_elem_of_lookup in Hin as (i & Hi).
    destruct (Forall2_lookup_r _ _ _ _ _ Hw Hi)
      as (t & _ & p & name & j & _ & _ & _ & [= -> ->]).
    by exists j.
  - intros Hdist i t Hi.
    pose proof (load_distinct_names _ _ _ (prep_load _ _ _ _ _ _ _ _ Hprep) Hdist) as Hdist'.
    destruct (Forall2_lookup_l _ _ _ _ _ Hw Hi)
      as (we & Hwe & p & name & j & Hpr & Hn & Hj & ->).
    rewrite (holder_distinct _ _ _ _ Hdist' Hi Hn) in Hj. injection Hj as <-.
    by exists p.
Qed.

Lemma objective_terms_witness :
  length (objective (cp_model_of (stages two_on_one).2))
  = length (trains two_on_one)
  ∧ (∀ w x, (w, x) ∈ objective (cp_model_of (stages two_on_one).2) →
            ∃ j, x = VEnd j)
  ∧ (distinct_names (trains two_on_one) →
     ∀ i t, (stages two_on_one).1.1 !! i = Some t →
            ∃ p, priority t = Ok p
                 ∧ objective (cp_model_of (stages two_on_one).2) !! i
                   = Some (10 - p, VEnd i)).
Proof.
  apply (objective_terms two_on_one _ (stages two_on_one).1.2). reflexivity.
Defined.

(** ** Witnesses for the properties of published schedules *)

Lemma two_on_one_distinct : distinct_names (trains two_on_one).
Proof.
  intros i j t u name Hi Hj Hn Hm.
  destruct i as [|[|i]], j as [|[|j]]; simpl in Hi, Hj; try done.
  - injection Hi as <-. injection Hj as <-.
    vm_compute in Hn, Hm. congruence.
  - injection Hi as <-. injection Hj as <-.
    vm_compute in Hn, Hm. congruence.
Qed.

Lemma distinct_names_entry_after_release_witness :
  ∃ a, release two_on_one 1 = Some a ∧ a <= 500.
Proof.
  apply (distinct_names_entry_after_release two_on_one
           (checked_solver two_on_one_values) 1 500 520 0).
  - apply checked_solver_sound.
  - apply two_on_one_distinct.
  - reflexivity.
Defined.

Lemma distinct_names_tracks_exclusive_witness :
  500 <= 500 ∨ 520 <= 480.
Proof.
  apply (distinct_names_tracks_exclusive two_on_one
           (checked_solver two_on_one_values) 0 1 480 500 500 520 0).
  - apply checked_solver_sound.
  - apply two_on_one_distinct.
  - discriminate.
  - reflexivity.
  - reflexivity.
Defined.

Lemma solution_is_extracted_witness :
  ∃ out, extract (stages two_on_one).2 two_on_one_values
                 (stages two_on_one).1.1 = Ok out
         ∧ length (out_trains out) = length (trains two_on_one)
         ∧ main two_on_one (checked_solver two_on_one_values) = publish out.
Proof.
  apply (solution_is_extracted two_on_one (checked_solver two_on_one_values)
           (stages two_on_one).1.1 (stages two_on_one).1.2
           (stages two_on_one).2 FEASIBLE two_on_one_values).
  - reflexivity.
  - reflexivity.
  - reflexivity.
  - reflexivity.
  - vm_compute. discriminate.
Defined.

Lemma shared_name_same_assignment_witness :
  assignment same_name (checked_solver same_name_values) 1
  = Some (480, 500, 0%nat).
Proof.
  apply (shared_name_same_assignment same_name
           (checked_solver same_name_values) 0 1
           (sample_train 1 "Express" "10:00" 1)
           (sample_train 2 "Express" "08:00" 2)); reflexivity.
Defined.

(** ** The dashboard on a published schedule *)

Lemma getitem_Ok (t : train) (key : string) (x : json) :
  getitem t key = Ok x ↔ t !! key = Some x.
Proof. apply of_option_Ok. Qed.

Lemma table_row_Ok (o : train) (row : list (string * json)) :
  App.table_row o = Ok row →
  ∀ col key, (col, key) ∈ input_columns → column col row = o !! key.
Proof.
  unfold App.table_row. intros H.
  apply bind_Ok in H as (id & Hid%getitem_Ok & H).
  apply bind_Ok in H as (name & Hname%getitem_Ok & H).
  apply bind_Ok in H as (type & _ & H).
  apply bind_Ok in H as (prio & Hprio%getitem_Ok & H).
  apply bind_Ok in H as (origin & Horigin%getitem_Ok & H).
  apply bind_Ok in H as (destination & Hdest%getitem_Ok & H).
  apply bind_Ok in H as (entry & _ & H).
  apply bind_Ok in H as (exit & _ & H).
  apply bind_Ok in H as (assigned & _ & [= <-]).
  intros col key Hin. unfold input_columns in Hin.
  rewrite !elem_of_cons, elem_of_nil in Hin.
  destruct Hin as [ [= -> ->] | [ [= -> ->] | [ [= -> ->] | [ [= -> ->] | [ [= -> ->] | [] ] ] ] ] ];
    simpl; done.
Qed.

(** X18.  The table of the dashboard can be built from every published
    schedule whose input records carry an id, both stations and no type
    other than a string: no row raises, there is one row per train, and
    the id, name, priority and station columns show the input fields. *)
Theorem dashboard_table_of_published (inp : input) (solve : solver)
    (out : output_data) :
  output_json (main inp solve) = Some out →
  (∀ t, t ∈ trains inp → listed t) →
  ∃ rows,
    App.table (out_trains out) = Ok rows
    ∧ length rows = length (trains inp)
    ∧ ∀ i row t col key,
        rows !! i = Some row → trains inp !! i = Some t →
        (col, key) ∈ input_columns → column col row = t !! key.
Proof.
  intros Hout Hlisted.
  destruct (main_published _ _ _ Hout)
    as (ts & hz & st & status & v & Hp & Hs & Hst & Hex).
  destruct (prepare_Ok _ _ _ _ Hp) as (ds & ends & latest & longest & Hprep).
  pose proof (prep_load _ _ _ _ _ _ _ _ Hprep) as Hload.
  pose proof (built_weights _ _ _ _ _ _ (prep_built _ _ _ _ _ _ _ _ Hprep)) as Hw.
  assert (Hrow : ∀ i o, out_trains out !! i = Some o →
            ∃ t row, trains inp !! i = Some t ∧ App.table_row o = Ok row
                     ∧ ∀ key, key ∉ written_fields → o !! key = t !! key).
  { intros i o Hi.
    destruct (extract_lookup _ _ _ _ _ _ Hex Hi) as (t' & s & e & c & Ht' & _ & Hen).
    destruct (load_frame _ _ _ _ _ Hload Ht') as (t & Ht & Hkeys).
    destruct (enrich_Ok _ _ _ _ _ Hen) as (entry & exit & _ & _ & ->).
    destruct (Forall2_lookup_l _ _ _ _ _ Hw Ht')
      as (we & _ & p & name & j & Hprio & Hname & _).
    destruct (Hlisted t) as ((id & Hid) & (origin & Horigin) & (dest & Hdest) & Htype).
    { apply list_elem_of_lookup. eauto. }
    unfold train_name in Hname.
    apply bind_Ok in Hname as (jname & Hjname%getitem_Ok & _).
    unfold priority in Hprio.
    apply bind_Ok in Hprio as (jprio & Hjprio%getitem_Ok & _).
    remember (<["assigned_track"%string := JInt (Z.of_nat c + 1)]>
                (<["section_exit_time"%string := JStr exit]>
                   (<["section_entry_time"%string := JStr entry]> t'))) as o eqn:Ho.
    assert (Hframe : ∀ key, key ∉ written_fields → o !! key = t !! key).
    { intros key Hkey. unfold written_fields, schedule_fields in Hkey.
      simpl in Hkey. rewrite !not_elem_of_cons in Hkey.
      destruct Hkey as (? & ? & ? & ? & ? & _). subst o.
      rewrite !lookup_insert_ne by done. by apply Hkeys. }
    assert (Hfield : ∀ key, key ∈ dashboard_fields → o !! key = t !! key).
    { intros key Hkey. by apply Hframe, dashboard_fields_not_written. }
    assert (Ho_id : o !! "id"%string = Some id).
    { rewrite Hfield; [done|]. unfold dashboard_fields. rewrite !elem_of_cons. tauto. }
    assert (Ho_name : o !! "train_name"%string = Some jname).
    { rewrite Hfield, <- Hkeys; [done..|].
      unfold dashboard_fields. rewrite !elem_of_cons. tauto. }
    assert (Ho_type : o !! "type"%string = t !! "type"%string).
    { apply Hfield. unfold dashboard_fields. rewrite !elem_of_cons. tauto. }
    assert (Ho_prio : o !! "priority"%string = Some jprio).
    { rewrite Hfield, <- Hkeys; [done..|].
      unfold dashboard_fields. rewrite !elem_of_cons. tauto. }
    assert (Ho_origin : o !! "starting_station"%string = Some origin).
    { rewrite Hfield; [done|]. unfold dashboard_fields. rewrite !elem_of_cons. tauto. }
    assert (Ho_dest : o !! "destination_station"%string = Some dest).
    { rewrite Hfield; [done|]. unfold dashboard_fields. rewrite !elem_of_cons. tauto. }
    assert (Ho_entry : o !! "section_entry_time"%string = Some (JStr entry)).
    { subst o. do 2 (rewrite lookup_insert_ne by done). by rewrite lookup_insert_eq. }
    assert (Ho_exit : o !! "section_exit_time"%string = Some (JStr exit)).
    { subst o. rewrite lookup_insert_ne by done. by rewrite lookup_insert_eq. }
    assert (Ho_track : o !! "assigned_track"%string = Some (JInt (Z.of_nat c + 1))).
    { subst o. by rewrite lookup_insert_eq. }
    exists t.
    assert (Hr : ∃ row, App.table_row o = Ok row); [|destruct Hr as (row & Hr); eauto].
    unfold App.table_row, App.type_label, getitem.
    rewrite Ho_id, Ho_name, Ho_type, Ho_prio, Ho_origin, Ho_dest,
      Ho_entry, Ho_exit, Ho_track. simpl.
    destruct Htype as [-> | (ty & ->)]; simpl; eauto. }
  destruct (map_result_total App.table_row (out_trains out)) as (rows & Hrows).
  { intros o Ho. apply list_elem_of_lookup in Ho as (i & Hi).
    destruct (Hrow i o Hi) as (t & row & _ & Hr & _). eauto. }
  exists rows. split; [done|]. split.
  - rewrite (map_result_length _ _ _ Hrows), (extract_length _ _ _ _ Hex).
    by apply (map_result_length _ _ _ Hload).
  - intros i row t col key Hi Ht Hcol.
    apply map_result_Ok in Hrows.
    destruct (Forall2_lookup_r _ _ _ _ _ Hrows Hi) as (o & Ho & Hro).
    destruct (Hrow i o Ho) as (t0 & row0 & Ht0 & _ & Hframe).
    rewrite Ht in Ht0. injection Ht0 as <-.
    rewrite (table_row_Ok _ _ Hro col key Hcol).
    apply Hframe. unfold input_columns in Hcol.
    rewrite !elem_of_cons, elem_of_nil in Hcol.
    apply dashboard_fields_not_written. unfold dashboard_fields.
    rewrite !elem_of_cons.
    destruct Hcol as [ [= _ ->] | [ [= _ ->] | [ [= _ ->] | [ [= _ ->] | [ [= _ ->] | [] ] ] ] ] ];
      tauto.
Qed.

Lemma two_listed_are_listed (t : train) : t ∈ trains two_listed → listed t.
Proof.
  intros Ht. simpl in Ht. rewrite !elem_of_cons, elem_of_nil in Ht.
  destruct Ht as [-> | [-> | [] ] ]; unfold listed;
    (split; [by eexists|]); (split; [by eexists|]); (split; [by eexists|]);
    right; by eexists.
Qed.

Lemma dashboard_table_of_published_witness :
  ∃ rows,
    App.table (out_trains (written two_listed_run)) = Ok rows
    ∧ length rows = length (trains two_listed)
    ∧ ∀ i row t col key,
        rows !! i = Some row → trains two_listed !! i = Some t →
        (col, key) ∈ input_columns → column col row = t !! key.
Proof.
  apply (dashboard_table_of_published two_listed
           (checked_solver two_on_one_values)).
  - reflexivity.
  - apply two_listed_are_listed.
Defined.

Lemma select_train_lookup (ts : list train) (i : nat) (t : train)
    (name : string) :
  ts !! i = Some t →
  t !! "train_name"%string = Some (JStr name) →
  (∀ u, u ∈ ts → is_Some (u !! "train_name"%string)) →
  ∃ j u,
    (j <= i)%nat ∧ ts !! j = Some u
    ∧ u !! "train_name"%string = Some (JStr name)
    ∧ App.select_train name ts = App.Selected u
    ∧ ∀ j' u', (j' < j)%nat → ts !! j' = Some u' →
               u' !! "train_name"%string ≠ Some (JStr name).
Proof.
  revert i. induction ts as [|x ts IH]; intros i Hi Hname Hall; [done|].
  destruct (Hall x) as (jx & Hx); [by left|].
  assert (Hrest : ∀ u, u ∈ ts → is_Some (u !! "train_name"%string))
    by (intros u Hu; apply Hall; by right).
  assert (Hdec : jx = JStr name ∨ jx ≠ JStr name).
  { destruct jx as [| | | |s| |]; try (right; congruence).
    destruct (decide (s = name)) as [->|]; [by left | right; congruence]. }
  destruct Hdec as [->|Hne].
  - exists 0%nat, x. split; [lia|]. split; [done|]. split; [done|]. split.
    + simpl. rewrite Hx. by rewrite decide_True.
    + intros j' u' Hj'. lia.
  - destruct i as [|i]; simpl in Hi.
    { injection Hi as ->. congruence. }
    destruct (IH i Hi Hname Hrest) as (j & u & Hj & Hu & Hun & Hsel & Hfirst).
    exists (S j), u. split; [lia|]. split; [done|]. split; [done|]. split.
    + simpl. rewrite Hx. destruct jx as [| | | |s| |]; try done.
      rewrite decide_False; [done|]. congruence.
    + intros j' u' Hj' Hu'. destruct j' as [|j']; simpl in Hu'.
      * injection Hu' as <-. congruence.
      * apply (Hfirst j' u'); [lia | done].
Qed.

(** X19.  Selecting a train by name in the dashboard shows the first
    record of that name: for the name of the [i]-th record, if it is not
    empty, the details are looked up, the lookup succeeds, the record it
    returns stands at a position [j <= i] and carries that name, and no
    record before it does.  A later train of the same name can never be
    shown. *)
Theorem select_train_first (ts : list train) (i : nat) (t : train)
    (name : string) :
  ts !! i = Some t →
  t !! "train_name"%string = Some (JStr name) →
  name ≠ EmptyString →
  (∀ u, u ∈ ts → is_Some (u !! "train_name"%string)) →
  ∃ j u,
    (j <= i)%nat ∧ ts !! j = Some u
    ∧ u !! "train_name"%string = Some (JStr name)
    ∧ App.train_details name ts = Some (App.Selected u)
    ∧ ∀ j' u', (j' < j)%nat → ts !! j' = Some u' →
               u' !! "train_name"%string ≠ Some (JStr name).
Proof.
  intros Hi Hname Hne Hall.
  destruct (select_train_lookup ts i t name Hi Hname Hall)
    as (j & u & Hj & Hu & Hun & Hsel & Hfirst).
  exists j, u. split_and!; try done.
  unfold App.train_details. rewrite decide_False by done. by rewrite Hsel.
Qed.

Lemma select_train_first_witness :
  ∃ j u,
    (j <= 1)%nat ∧ trains same_name !! j = Some u
    ∧ u !! "train_name"%string = Some (JStr "Express")
    ∧ App.train_details "Express" (trains same_name) = Some (App.Selected u)
    ∧ ∀ j' u', (j' < j)%nat → trains same_name !! j' = Some u' →
               u' !! "train_name"%string ≠ Some (JStr "Express").
Proof.
  apply (select_train_first (trains same_name) 1
           (sample_train 2 "Express" "08:00" 2)).
  - reflexivity.
  - reflexivity.
  - discriminate.
  - intros u Hu. simpl in Hu. rewrite !elem_of_cons, elem_of_nil in Hu.
    destruct Hu as [-> | [-> | [] ] ]; by eexists.
Defined.

Lemma no_tracks_crash_witness :
  ∃ e, main no_track_two (checked_solver two_on_one_values) = crashed e.
Proof. apply no_tracks_crash. reflexivity. Defined.

(** ** The horizon *)

Lemma longest_run_bound (ts : list train) (longest : Z) (i : nat)
    (t : train) (ds : list Z) (k : nat) (d : Z) :
  longest_run ts = Ok longest → ts !! i = Some t → durations t = Ok ds →
  ds !! k = Some d → d <= longest.
Proof.
  unfold longest_run. intros H Hi Hds Hk.
  apply bind_Ok in H as (runs & Hruns & Hmax).
  destruct (map_result_lookup _ _ _ _ _ Hruns Hi) as (r & Hr & Heq).
  rewrite Hds in Heq. simpl in Heq.
  assert (d <= r).
  { apply (max_of_Ok _ _ Heq). apply list_elem_of_lookup. eauto. }
  assert (r <= longest).
  { apply (max_of_Ok _ _ Hmax). apply list_elem_of_lookup. eauto. }
  lia.
Qed.

(** X20.  The horizon leaves the buffer of 600 minutes behind every
    single run: for every train and every track, the arrival of the train
    plus the duration of the track plus 600 is at most the horizon. *)
Theorem horizon_covers_each_run (inp : input) (ts : list train) (hz : Z)
    (st : builder) (i : nat) (t : train) (a : Z) (k : nat) (tr : track)
    (d : Z) :
  prepare inp = Ok (ts, hz, st) →
  ts !! i = Some t → arrival_min t = Ok a →
  tracks inp !! k = Some tr → Load.time_min tr = Ok d →
  a + d + 600 <= hz.
Proof.
  intros Hp Hi Ha Htr Hd.
  destruct (prepare_Ok _ _ _ _ Hp) as (ds & ends & latest & longest & Hprep).
  destruct Hprep as [_ Hds Hall _ Hlatest Hlongest -> _].
  pose proof (track_durations_lookup_l _ _ _ _ _ Hds Htr Hd) as Hk.
  rewrite Forall_lookup in Hall. destruct (Hall _ _ Hi) as (Hdur & _).
  pose proof (latest_arrival_bound _ _ _ _ _ Hlatest Hi Ha).
  pose proof (longest_run_bound _ _ _ _ _ _ _ Hlongest Hi Hdur Hk).
  lia.
Qed.

Lemma horizon_covers_each_run_witness :
  480 + 20 + 600 <= (stages two_on_one).1.2.
Proof.
  apply (horizon_covers_each_run two_on_one (stages two_on_one).1.1 _
           (stages two_on_one).2 0
           (default ∅ ((stages two_on_one).1.1 !! 0%nat)) 480 0
           {| length_km := 20; speed_kmph := 60 |} 20); reflexivity.
Defined.
